(** * minidot.py: the wrapper script around minimap2 and minidot.R

    A shallow embedding of [minidot.py].  The script is a straight line of
    effects: it opens two output files, loops over the FASTA arguments
    writing one entry and several length rows per file, runs the aligner,
    builds the renderer's argument list and runs the renderer.

    The embedding threads a [world] through a small state-and-exception
    monad.  The world holds what the script itself has written through its
    file handles, the set of handles that are still open, and the
    chronological trace of the effects performed.  A file handle is
    identified with the path it was opened on; the three paths the script
    opens are pairwise distinct.  What lies outside the script is an
    environment [Env]: the result of [pysam.FastaFile] on a path at the
    moment the script calls it, and the result of spawning a child process
    with [subprocess.call].

    Not modelled: the tokenising done by [argparse] (a command line is taken
    as the record of what the user supplied), failures of [open(_, "w")] and
    of [write] that come from the operating system, the buffering of Python
    file objects, the index file that [pysam] may create next to a FASTA, and
    what the child processes do to the file system.  The input FASTA files
    are taken to be other files than the script's own outputs. *)

From Stdlib Require Import ZArith Ascii.
From stdpp Require Import gmap strings list fin_maps pretty.

(** ** Python string operations used by the script *)

Definition TAB : string := String "009"%char "".
Definition NL : string := String "010"%char "".

(** [s.split(sep)] for a one-character separator. The result is never empty. *)
Fixpoint split (sep : ascii) (s : string) : list string :=
  match s with
  | EmptyString => [""]
  | String c s' =>
      if decide (c = sep) then "" :: split sep s'
      else match split sep s' with
           | [] => [String c ""]
           | w :: ws => String c w :: ws
           end
  end.

(** [l[0]] on a list of strings that is known not to be empty. *)
Definition item0 (l : list string) : string := hd "" l.

(** [s.rfind(c)]: index of the last occurrence of [c], or [-1]. *)
Fixpoint rfind (c : ascii) (s : string) : Z :=
  match s with
  | EmptyString => (-1)%Z
  | String a s' =>
      let r := rfind c s' in
      if (0 <=? r)%Z then (r + 1)%Z
      else if decide (a = c) then 0%Z else (-1)%Z
  end.

(** [s[i:]] for [0 <= i]. *)
Fixpoint slice_from (i : nat) (s : string) : string :=
  match i, s with
  | O, _ => s
  | S _, EmptyString => ""
  | S i', String _ s' => slice_from i' s'
  end.

(** [os.path.basename] of posixpath: [i = p.rfind('/') + 1; return p[i:]]. *)
Definition os_path_basename (p : string) : string :=
  slice_from (Z.to_nat (rfind "/"%char p + 1)) p.

(** ["".join(l)]. *)
Fixpoint join (l : list string) : string :=
  match l with
  | [] => ""
  | s :: l' => s +:+ join l'
  end.

(** Truth value of a [str]. *)
Definition truthy (s : string) : bool :=
  match s with EmptyString => false | String _ _ => true end.

(** Truth value of a value that is [None] or a [str]. *)
Definition truthy_opt (o : option string) : bool :=
  match o with None => false | Some s => truthy s end.

(** ** Command line and argument namespace *)

(** What the user supplied: the three positionals, and each option when it
    was given. *)
Record cmdline := {
  c_minidotr : string;
  c_output : string;
  c_fasta : list string;
  c_mapper : option string;
  c_mode : option string;
  c_tmp : option string;
  c_width : option string;
  c_thick : option string;
  c_title : option string;
  c_no_self : bool;
  c_strip : bool;
  c_identity : option string
}.

(** The namespace returned by [parser.parse_args()]. *)
Record Namespace := {
  minidotr : string;
  output : string;
  fasta : list string;
  mapper : string;
  mode : string;
  tmp : string;
  width : string;
  thick : string;
  title : option string;
  no_self : bool;
  strip : bool;
  identity : string
}.

(** The [add_argument] declarations: defaults are filled in for the options
    that were not given; [nargs='+'] rejects an empty list of FASTA files. *)
Definition parse_args (c : cmdline) : option Namespace :=
  match c_fasta c with
  | [] => None
  | _ :: _ =>
      Some {| minidotr := c_minidotr c;
              output := c_output c;
              fasta := c_fasta c;
              mapper := default "minimap2" (c_mapper c);
              mode := default "asm10" (c_mode c);
              tmp := default "/tmp" (c_tmp c);
              width := default "20" (c_width c);
              thick := default "2" (c_thick c);
              title := c_title c;
              no_self := c_no_self c;
              strip := c_strip c;
              identity := default "0.0" (c_identity c) |}
  end.

(** ** Environment, world and effects *)

(** The object returned by [pysam.FastaFile]: its [references] and what
    [fetch(reference=_)] returns ([None] when it raises). *)
Record FastaFile := {
  references : list string;
  fetch : string -> option string
}.

Record Env := {
  (** [pysam.FastaFile(path)], [None] when opening or indexing fails *)
  pysam_FastaFile : string -> option FastaFile;
  (** [subprocess.call(argv)]: the child's return code, [None] when the
      child cannot be spawned *)
  subprocess_call : list string -> option Z
}.

Inductive event :=
  | EOpen (path : string)
  | EWrite (path data : string)
  | EClose (path : string)
  | EFasta (path : string)
  | ECall (argv : list string) (stdout : option string)
  | EPrint (l : list string).

Global Instance event_eq_dec : EqDecision event.
Proof. solve_decision. Defined.

Record world := {
  files : gmap string string;
  handles : gset string;
  trace : list event
}.

Inductive exn :=
  | FastaError (path : string)
  | FetchError (path reference : string)
  | ClosedFile (path : string)
  | SpawnError (argv : list string).

Inductive result (A : Type) :=
  | Ok (a : A)
  | Raise (e : exn).
Arguments Ok {A} a.
Arguments Raise {A} e.

Definition M (A : Type) : Type := world -> result A * world.

Definition ret {A} (a : A) : M A := fun w => (Ok a, w).

Definition bind {A B} (m : M A) (k : A -> M B) : M B :=
  fun w => match m w with
           | (Ok a, w') => k a w'
           | (Raise e, w') => (Raise e, w')
           end.

Definition raise {A} (e : exn) : M A := fun w => (Raise e, w).

Notation "x <- m ;; k" := (bind m (fun x => k))
  (at level 100, m at next level, right associativity).
Notation "m ;;; k" := (bind m (fun _ => k))
  (at level 100, right associativity).

Definition log (e : event) (w : world) : world :=
  {| files := files w; handles := handles w; trace := trace w ++ [e] |}.

(** [open(path, "w")]: the file is created or truncated. *)
Definition open_w (path : string) : M unit :=
  fun w => (Ok tt, log (EOpen path)
                     {| files := <[path := ""]> (files w);
                        handles := {[path]} ∪ handles w;
                        trace := trace w |}).

(** [fh.write(data)]. *)
Definition write (path data : string) : M unit :=
  fun w =>
    if decide (path ∈ handles w) then
      (Ok tt, log (EWrite path data)
                {| files := <[path := default "" (files w !! path) +:+ data]> (files w);
                   handles := handles w;
                   trace := trace w |})
    else (Raise (ClosedFile path), w).

(** [fh.close()]. *)
Definition close (path : string) : M unit :=
  fun w => (Ok tt, log (EClose path)
                     {| files := files w;
                        handles := handles w ∖ {[path]};
                        trace := trace w |}).

Definition FastaFile_open (E : Env) (path : string) : M FastaFile :=
  fun w => match pysam_FastaFile E path with
           | Some fh => (Ok fh, log (EFasta path) w)
           | None => (Raise (FastaError path), log (EFasta path) w)
           end.

Definition FastaFile_fetch (path : string) (fh : FastaFile) (reference : string)
  : M string :=
  match fetch fh reference with
  | Some seq => ret seq
  | None => raise (FetchError path reference)
  end.

(** [call(argv, stdout=...)]; the return code is handed back to the caller. *)
Definition call (E : Env) (argv : list string) (stdout : option string) : M Z :=
  fun w => match subprocess_call E argv with
           | Some rc => (Ok rc, log (ECall argv stdout) w)
           | None => (Raise (SpawnError argv), log (ECall argv stdout) w)
           end.

Definition print (l : list string) : M unit :=
  fun w => (Ok tt, log (EPrint l) w).

(** ** The script *)

(** [prefix = args.output.split('.')[0]+'.'] *)
Definition prefix (args : Namespace) : string :=
  item0 (split "."%char (output args)) +:+ ".".

Definition fa_path (args : Namespace) : string := prefix args +:+ "fa".
Definition tlen_path (args : Namespace) : string := prefix args +:+ "tlen".
Definition paf_path (args : Namespace) : string := prefix args +:+ "paf".

(** [basename = os.path.basename(fasta).split('.')[0]] *)
Definition basename_of (fasta : string) : string :=
  item0 (split "."%char (os_path_basename fasta)).

(** The line written to the length table. *)
Definition tlen_line (basename seq : string) : string :=
  basename +:+ TAB +:+ pretty (String.length seq) +:+ NL.

(** The entry written to the concatenated FASTA. *)
Definition fasta_entry (basename : string) (join_seq : list string) : string :=
  ">" +:+ basename +:+ NL +:+ join join_seq +:+ NL.

(** [for reference in fasta_fh.references: ...], with [join_seq] as the
    loop-carried list. *)
Fixpoint reference_loop (args : Namespace) (fasta basename : string)
    (fasta_fh : FastaFile) (refs : list string) (join_seq : list string)
  : M (list string) :=
  match refs with
  | [] => ret join_seq
  | reference :: refs' =>
      seq <- FastaFile_fetch fasta fasta_fh reference ;;
      let join_seq := join_seq ++ [seq] in
      write (tlen_path args) (tlen_line basename seq) ;;;
      reference_loop args fasta basename fasta_fh refs' join_seq
  end.

(** The body of [for fasta in args.fasta]. *)
Definition fasta_body (E : Env) (args : Namespace) (fasta : string) : M unit :=
  let basename := basename_of fasta in
  fasta_fh <- FastaFile_open E fasta ;;
  join_seq <- reference_loop args fasta basename fasta_fh (references fasta_fh) [] ;;
  write (fa_path args) (fasta_entry basename join_seq).

Fixpoint fasta_loop (E : Env) (args : Namespace) (l : list string) : M unit :=
  match l with
  | [] => ret tt
  | fasta :: l' => fasta_body E args fasta ;;; fasta_loop E args l'
  end.

(** Lines 30-42: the sequence preparer. *)
Definition prepare (E : Env) (args : Namespace) : M unit :=
  open_w (fa_path args) ;;;
  open_w (tlen_path args) ;;;
  fasta_loop E args (fasta args) ;;;
  close (tlen_path args).

Definition mapper_argv (args : Namespace) : list string :=
  [mapper args; "-x"; mode args; "--no-long-join"; "--dual=yes"; "-P";
   fa_path args; fa_path args].

(** Lines 44-46: the aligner. *)
Definition align (E : Env) (args : Namespace) : M Z :=
  open_w (paf_path args) ;;;
  rc <- call E (mapper_argv args) (Some (paf_path args)) ;;
  close (paf_path args) ;;;
  ret rc.

(** Lines 48-60. *)
Definition Rargs (args : Namespace) : list string :=
  let Rargs := ["-i"; paf_path args; "-l"; tlen_path args; "-o"; output args] in
  let Rargs := if no_self args then Rargs ++ ["--no-self"] else Rargs in
  let Rargs := if strip args then Rargs ++ ["--strip"] else Rargs in
  let Rargs := if truthy_opt (title args)
               then Rargs ++ ["--title"; default "" (title args)] else Rargs in
  let Rargs := if truthy (width args)
               then Rargs ++ ["--width"; width args] else Rargs in
  let Rargs := if truthy (thick args)
               then Rargs ++ ["--thick"; thick args] else Rargs in
  let Rargs := if truthy (identity args)
               then Rargs ++ ["--identity"; identity args] else Rargs in
  Rargs.

Definition minidotr_argv (args : Namespace) : list string :=
  [minidotr args] ++ Rargs args.

(** Lines 62-63: the renderer. *)
Definition render (E : Env) (args : Namespace) : M Z :=
  print (Rargs args) ;;;
  call E (minidotr_argv args) None.

(** The script body after [parse_args]. Both return codes are dropped. *)
Definition script (E : Env) (args : Namespace) : M unit :=
  prepare E args ;;;
  _ <- align E args ;;
  _ <- render E args ;;
  ret tt.

Definition init_world : world :=
  {| files := ∅; handles := ∅; trace := [] |}.

(** Exit status of the interpreter: 0 when the script runs to its end, 1 when
    an exception is not caught, 2 when [argparse] rejects the command line. *)
Definition exit_status (r : result unit) : Z :=
  match r with Ok _ => 0%Z | Raise _ => 1%Z end.

Definition main (E : Env) (c : cmdline) : Z * world :=
  match parse_args c with
  | None => (2%Z, init_world)
  | Some args => let (r, w) := script E args init_world in (exit_status r, w)
  end.

(** ** Observations on worlds and traces *)

(** The effect of one performed event on the world. *)
Definition effect (e : event) (w : world) : world :=
  log e match e with
        | EOpen p =>
            {| files := <[p := ""]> (files w);
               handles := {[p]} ∪ handles w;
               trace := trace w |}
        | EWrite p d =>
            {| files := <[p := default "" (files w !! p) +:+ d]> (files w);
               handles := handles w;
               trace := trace w |}
        | EClose p =>
            {| files := files w;
               handles := handles w ∖ {[p]};
               trace := trace w |}
        | _ => w
        end.

Definition replay (es : list event) (w : world) : world :=
  foldl (fun w e => effect e w) w es.

(** The data written to [path], in order. *)
Fixpoint writes_to (path : string) (es : list event) : list string :=
  match es with
  | [] => []
  | EWrite p d :: es' =>
      if decide (p = path) then d :: writes_to path es' else writes_to path es'
  | _ :: es' => writes_to path es'
  end.

(** The child processes spawned, in order: argument vector and the file
    that receives the child's standard output. *)
Fixpoint calls (es : list event) : list (list string * option string) :=
  match es with
  | [] => []
  | ECall argv so :: es' => (argv, so) :: calls es'
  | _ :: es' => calls es'
  end.

(** The FASTA paths handed to [pysam.FastaFile], in order. *)
Fixpoint fasta_opened (es : list event) : list string :=
  match es with
  | [] => []
  | EFasta p :: es' => p :: fasta_opened es'
  | _ :: es' => fasta_opened es'
  end.

(** Events that leave the set of open handles alone and truncate nothing. *)
Definition quiet (e : event) : Prop :=
  match e with
  | EWrite _ _ | EFasta _ => True
  | _ => False
  end.

(** Occurrence of a character in a string. *)
Fixpoint occurs (c : ascii) (s : string) : bool :=
  match s with
  | EmptyString => false
  | String a s' => if decide (a = c) then true else occurs c s'
  end.

(** The part of a string before its first dot (the whole string when it has
    none), as the specification words it. *)
Fixpoint before_first_dot (s : string) : string :=
  match s with
  | EmptyString => ""
  | String c s' => if decide (c = "."%char) then "" else String c (before_first_dot s')
  end.

(** All sequences of an opened FASTA, in the order of its [references]. *)
Definition sequences (fh : FastaFile) : option (list string) :=
  mapM (fetch fh) (references fh).

(** The sequences of the FASTA at [path], when it opens and every sequence
    can be fetched. *)
Definition read_fasta (E : Env) (path : string) : option (list string) :=
  match pysam_FastaFile E path with
  | Some fh => sequences fh
  | None => None
  end.

(** The sequences fetched before the first failing [fetch], and the
    reference it failed on. *)
Fixpoint fetch_upto (fh : FastaFile) (refs : list string)
  : list string * option string :=
  match refs with
  | [] => ([], None)
  | r :: refs' =>
      match fetch fh r with
      | None => ([], Some r)
      | Some seq => let (seqs, bad) := fetch_upto fh refs' in (seq :: seqs, bad)
      end
  end.

Definition tlen_rows (args : Namespace) (fasta : string) (seqs : list string)
  : list event :=
  (fun seq => EWrite (tlen_path args) (tlen_line (basename_of fasta) seq)) <$> seqs.

(** The events of one pass through the body of the outer loop, and the
    exception that ends it, if any. *)
Definition file_run (E : Env) (args : Namespace) (fasta : string)
  : list event * option exn :=
  match pysam_FastaFile E fasta with
  | None => ([EFasta fasta], Some (FastaError fasta))
  | Some fh =>
      match fetch_upto fh (references fh) with
      | (seqs, Some r) =>
          (EFasta fasta :: tlen_rows args fasta seqs, Some (FetchError fasta r))
      | (seqs, None) =>
          (EFasta fasta :: tlen_rows args fasta seqs
             ++ [EWrite (fa_path args) (fasta_entry (basename_of fasta) seqs)],
           None)
      end
  end.

Fixpoint loop_run (E : Env) (args : Namespace) (l : list string)
  : list event * option exn :=
  match l with
  | [] => ([], None)
  | fasta :: l' =>
      match file_run E args fasta with
      | (es, Some e) => (es, Some e)
      | (es, None) => let (es', r) := loop_run E args l' in (es ++ es', r)
      end
  end.

(** The events of a FASTA whose sequences are [seqs]. *)
Definition file_events (args : Namespace) (fasta : string) (seqs : list string)
  : list event :=
  EFasta fasta :: tlen_rows args fasta seqs
    ++ [EWrite (fa_path args) (fasta_entry (basename_of fasta) seqs)].

Definition loop_events (args : Namespace) (l : list string)
    (seqss : list (list string)) : list event :=
  concat (zip_with (file_events args) l seqss).

(** What follows the outer loop. *)
Definition tail_run (E : Env) (args : Namespace) : list event * result unit :=
  let to_call := [EClose (tlen_path args); EOpen (paf_path args);
                  ECall (mapper_argv args) (Some (paf_path args))] in
  match subprocess_call E (mapper_argv args) with
  | None => (to_call, Raise (SpawnError (mapper_argv args)))
  | Some _ =>
      (to_call ++ [EClose (paf_path args); EPrint (Rargs args);
                   ECall (minidotr_argv args) None],
       match subprocess_call E (minidotr_argv args) with
       | None => Raise (SpawnError (minidotr_argv args))
       | Some _ => Ok tt
       end)
  end.

Definition script_run (E : Env) (args : Namespace) : list event * result unit :=
  let opens := [EOpen (fa_path args); EOpen (tlen_path args)] in
  match loop_run E args (fasta args) with
  | (es, Some e) => (opens ++ es, Raise e)
  | (es, None) => let (es', r) := tail_run E args in (opens ++ es ++ es', r)
  end.

Definition outcome (o : option exn) : result unit :=
  match o with None => Ok tt | Some e => Raise e end.

(** The events of the sequence preparer alone. *)
Definition prepare_run (E : Env) (args : Namespace) : list event * result unit :=
  let opens := [EOpen (fa_path args); EOpen (tlen_path args)] in
  match loop_run E args (fasta args) with
  | (es, Some e) => (opens ++ es, Raise e)
  | (es, None) => (opens ++ es ++ [EClose (tlen_path args)], Ok tt)
  end.

(** The rows that reach the length table from a FASTA that cannot be read
    to its end: none when it does not open, otherwise one for each sequence
    fetched before the failing [fetch]. *)
Definition rows_before_failure (E : Env) (fasta : string) : list string :=
  match pysam_FastaFile E fasta with
  | None => []
  | Some fh => tlen_line (basename_of fasta) <$> (fetch_upto fh (references fh)).1
  end.

(** ** Statements of the specification that are compared with the script *)

(** An option of the renderer that takes a value, as forwarded by the
    script: present when the value in effect is a non-empty string. *)
Definition forwarded (flag : string) (value : option string) : list string :=
  match value with
  | Some (String c s) => [flag; String c s]
  | _ => []
  end.

(** "Each flag is forwarded exactly when it was supplied." *)
Definition forwarded_exactly_when_supplied (c : cmdline) : Prop :=
  ∀ args,
    parse_args c = Some args →
    ("--no-self" ∈ Rargs args ↔ c_no_self c = true)
    ∧ ("--strip" ∈ Rargs args ↔ c_strip c = true)
    ∧ ("--title" ∈ Rargs args ↔ is_Some (c_title c))
    ∧ ("--width" ∈ Rargs args ↔ is_Some (c_width c))
    ∧ ("--thick" ∈ Rargs args ↔ is_Some (c_thick c))
    ∧ ("--identity" ∈ Rargs args ↔ is_Some (c_identity c)).

(** "The exit code equals the return code of the last subprocess call." *)
Definition exit_code_is_last_return_code (E : Env) (c : cmdline) : Prop :=
  ∀ argv stdout rc,
    last (calls (trace (main E c).2)) = Some (argv, stdout) →
    subprocess_call E argv = Some rc →
    (main E c).1 = rc.

(** "A failing FASTA leaves neither a concatenated sequence file nor a
    length table behind." *)
Definition no_partial_output (E : Env) (args : Namespace) : Prop :=
  (∃ path, path ∈ fasta args ∧ read_fasta E path = None) →
  ∀ r w,
    script E args init_world = (r, w) →
    files w !! fa_path args = None ∧ files w !! tlen_path args = None.

(** The command line [c] with another value, or none, for [--tmp]. *)
Definition with_tmp (t : option string) (c : cmdline) : cmdline :=
  {| c_minidotr := c_minidotr c; c_output := c_output c; c_fasta := c_fasta c;
     c_mapper := c_mapper c; c_mode := c_mode c; c_tmp := t;
     c_width := c_width c; c_thick := c_thick c; c_title := c_title c;
     c_no_self := c_no_self c; c_strip := c_strip c;
     c_identity := c_identity c |}.

(** The events the script can perform on its own files: it opens only its
    three derived paths, writes only to P.fa and P.tlen, and closes only
    P.tlen and P.paf. *)
Definition own_event (args : Namespace) (e : event) : Prop :=
  match e with
  | EOpen p => p = fa_path args ∨ p = tlen_path args ∨ p = paf_path args
  | EWrite p _ => p = fa_path args ∨ p = tlen_path args
  | EClose p => p = tlen_path args ∨ p = paf_path args
  | _ => True
  end.

(** ** Concrete runs *)

Module Sample.

Fixpoint bases (n : nat) (c : ascii) : string :=
  match n with
  | O => ""
  | S n' => String c (bases n' c)
  end.

(** An indexed FASTA given by its records, in file order. *)
Definition fasta_of (records : list (string * string)) : FastaFile :=
  {| references := records.*1;
     fetch := fun reference =>
                (fun found => found.2.2)
                  <$> list_find (fun r => r.1 = reference) records |}.

(** An index whose third entry cannot be fetched. *)
Definition truncated : FastaFile :=
  {| references := ["c1"; "c2"; "c3"];
     fetch := fun reference =>
                if decide (reference = "c1") then Some "ACGTA"
                else if decide (reference = "c2") then Some "GG"
                else None |}.

(** [a.fa] and [b.fa] hold one sequence each, of 100 and 200 bases;
    [dir/genome.fa.gz] holds three; [cut.fa] opens but breaks at its
    third sequence; nothing else opens.  The aligner exits with 1 and the
    renderer with 3. *)
Definition env : Env :=
  {| pysam_FastaFile := fun path =>
       if decide (path = "a.fa") then
         Some (fasta_of [("chr1", bases 100 "A")])
       else if decide (path = "b.fa") then
         Some (fasta_of [("chrB", bases 200 "C")])
       else if decide (path = "dir/genome.fa.gz") then
         Some (fasta_of [("s1", "ACGT"); ("s2", "GG"); ("s3", "TTT")])
       else if decide (path = "cut.fa") then Some truncated
       else None;
     subprocess_call := fun argv =>
       if decide (head argv = Some "minimap2") then Some 1%Z else Some 3%Z |}.

(** The same files, with an aligner that exits with 0. *)
Definition env_aligned : Env :=
  {| pysam_FastaFile := pysam_FastaFile env;
     subprocess_call := fun argv =>
       if decide (head argv = Some "minimap2") then Some 0%Z else Some 3%Z |}.

(** [minidot.py minidot.R out.pdf <fastas>] *)
Definition plain (fastas : list string) : cmdline :=
  {| c_minidotr := "minidot.R"; c_output := "out.pdf"; c_fasta := fastas;
     c_mapper := None; c_mode := None; c_tmp := None;
     c_width := None; c_thick := None; c_title := None;
     c_no_self := false; c_strip := false; c_identity := None |}.

(** [minidot.py minidot.R out.pdf a.fa b.fa --title "My Plot" --no-self] *)
Definition titled : cmdline :=
  {| c_minidotr := "minidot.R"; c_output := "out.pdf";
     c_fasta := ["a.fa"; "b.fa"];
     c_mapper := None; c_mode := None; c_tmp := None;
     c_width := None; c_thick := None; c_title := Some "My Plot";
     c_no_self := true; c_strip := false; c_identity := None |}.

(** The namespace of a command line that is known to parse. *)
Definition namespace (c : cmdline) : Namespace :=
  default {| minidotr := ""; output := ""; fasta := []; mapper := "";
             mode := ""; tmp := ""; width := ""; thick := ""; title := None;
             no_self := false; strip := false; identity := "" |}
          (parse_args c).

(** [minidot.py minidot.R out.pdf a.fa dir/genome.fa.gz] and the
    sequences of its two inputs. *)
Definition mixed : Namespace := namespace (plain ["a.fa"; "dir/genome.fa.gz"]).
Definition mixed_seqs : list (list string) :=
  [[bases 100 "A"]; ["ACGT"; "GG"; "TTT"]].

(** [minidot.py minidot.R out.pdf a.fa b.fa] and the sequences of its two
    inputs. *)
Definition pair : Namespace := namespace (plain ["a.fa"; "b.fa"]).
Definition pair_seqs : list (list string) :=
  [[bases 100 "A"]; [bases 200 "C"]].

(** Runs whose second input cannot be read: [missing.fa] does not open,
    [cut.fa] breaks at its third sequence. *)
Definition unreadable : Namespace :=
  namespace (plain ["a.fa"; "missing.fa"; "b.fa"]).
Definition broken : Namespace :=
  namespace (plain ["a.fa"; "cut.fa"; "b.fa"]).

(** The same files, with an aligner that cannot be spawned. *)
Definition env_no_aligner : Env :=
  {| pysam_FastaFile := pysam_FastaFile env;
     subprocess_call := fun argv =>
       if decide (head argv = Some "minimap2") then None else Some 0%Z |}.

(** The same files, with a renderer that cannot be spawned. *)
Definition env_no_renderer : Env :=
  {| pysam_FastaFile := pysam_FastaFile env;
     subprocess_call := fun argv =>
       if decide (head argv = Some "minimap2") then Some 0%Z else None |}.

(** [minidot.py minidot.R results.v1/plot.pdf a.fa] *)
Definition dotted_directory : Namespace :=
  {| minidotr := "minidot.R"; output := "results.v1/plot.pdf";
     fasta := ["a.fa"]; mapper := "minimap2"; mode := "asm10"; tmp := "/tmp";
     width := "20"; thick := "2"; title := None; no_self := false;
     strip := false; identity := "0.0" |}.

End Sample.

(** ** Facts about the string operations *)

Lemma append_cons c (a b : string) : String c a +:+ b = String c (a +:+ b).
Proof. reflexivity. Qed.

Lemma append_nil_l (b : string) : "" +:+ b = b.
Proof. reflexivity. Qed.

Lemma append_nil_r (a : string) : a +:+ "" = a.
Proof.
  induction a as [|x a IH]; [done|]. rewrite append_cons. by rewrite IH.
Qed.

Lemma append_assoc (a b c : string) : (a +:+ b) +:+ c = a +:+ (b +:+ c).
Proof.
  induction a as [|x a IH]; [done|]. rewrite !append_cons. by rewrite IH.
Qed.

Lemma append_inv_head p a b : p +:+ a = p +:+ b → a = b.
Proof.
  induction p as [|c p IH]; [done|]. rewrite !append_cons. intros [=]. auto.
Qed.

Lemma join_app l1 l2 : join (l1 ++ l2) = join l1 +:+ join l2.
Proof.
  induction l1 as [|s l1 IH]; simpl; [done|]. by rewrite IH, append_assoc.
Qed.

Lemma split_nonempty sep s : split sep s ≠ [].
Proof.
  destruct s as [|c s]; simpl; [done|].
  case_decide; [done|]. by destruct (split sep s).
Qed.

Lemma item0_split_dot s : item0 (split "."%char s) = before_first_dot s.
Proof.
  induction s as [|c s IH]; simpl; [done|].
  case_decide; [done|].
  pose proof (split_nonempty "."%char s) as Hne.
  destruct (split "."%char s) as [|w ws]; [done|].
  simpl in *. by rewrite IH.
Qed.

Lemma before_first_dot_no_dot s : occurs "."%char (before_first_dot s) = false.
Proof.
  induction s as [|c s IH]; simpl; [done|].
  case_decide as Hc; [done|]. simpl. by rewrite decide_False.
Qed.

Lemma before_first_dot_prefix s :
  ∃ rest, s = before_first_dot s +:+ rest
          ∧ (rest = "" ∨ ∃ r, rest = String "."%char r).
Proof.
  induction s as [|c s (rest & Hs & Hr)]; simpl.
  - exists "". split; [done|by left].
  - case_decide as Hc.
    + subst c. exists (String "."%char s). split; [done|]. right. by eexists.
    + exists rest. split; [|done]. rewrite append_cons. by rewrite <- Hs.
Qed.

Lemma before_first_dot_id s : occurs "."%char s = false → before_first_dot s = s.
Proof.
  induction s as [|c s IH]; simpl; [done|].
  case_decide; [done|]. intros H'. by rewrite IH.
Qed.

Lemma slice_from_append d s : slice_from (String.length d) (d +:+ s) = s.
Proof. induction d as [|x d IH]; [done|]. rewrite append_cons. simpl. apply IH. Qed.

Lemma rfind_spec c s :
  (rfind c s = (-1)%Z ∧ occurs c s = false)
  ∨ (∃ d rest, s = d +:+ String c rest ∧ occurs c rest = false
               ∧ rfind c s = Z.of_nat (String.length d)).
Proof.
  induction s as [|a s IH]; simpl; [by left|].
  destruct IH as [[Hr Ho]|(d & rest & Hs & Ho & Hr)].
  - rewrite Hr. simpl. case_decide as Ha.
    + subst a. right. exists "", s. by rewrite append_nil_l.
    + by left.
  - right. exists (String a d), rest. rewrite append_cons, <- Hs.
    split; [done|]. split; [done|].
    rewrite Hr. destruct (0 <=? Z.of_nat (String.length d))%Z eqn:Hle.
    + simpl String.length. lia.
    + apply Z.leb_gt in Hle. lia.
Qed.

Lemma os_path_basename_spec p :
  ∃ dir, p = dir +:+ os_path_basename p
         ∧ occurs "/"%char (os_path_basename p) = false
         ∧ (dir = "" ∨ ∃ d, dir = d +:+ "/").
Proof.
  unfold os_path_basename.
  destruct (rfind_spec "/"%char p) as [[Hr Ho]|(d & rest & Hs & Ho & Hr)].
  - rewrite Hr. simpl. exists "". by eauto.
  - rewrite Hr. exists (d +:+ "/").
    assert (slice_from (Z.to_nat (Z.of_nat (String.length d) + 1)) p = rest) as ->.
    { replace (Z.to_nat (Z.of_nat (String.length d) + 1))
        with (String.length (d +:+ "/")).
      - rewrite Hs. change (String "/"%char rest) with ("/" +:+ rest).
        rewrite <- append_assoc. apply slice_from_append.
      - clear. induction d as [|x d IH]; [done|].
        rewrite append_cons. simpl String.length. lia. }
    split; [|split; [done|right; by eexists]].
    rewrite Hs. change (String "/"%char rest) with ("/" +:+ rest).
    by rewrite append_assoc.
Qed.

(** The name given to a FASTA path is the part of its base name before the
    first dot. *)
Lemma basename_of_spec fasta :
  ∃ dir rest,
    fasta = dir +:+ basename_of fasta +:+ rest
    ∧ (dir = "" ∨ ∃ d, dir = d +:+ "/")
    ∧ occurs "/"%char (basename_of fasta +:+ rest) = false
    ∧ occurs "."%char (basename_of fasta) = false
    ∧ (rest = "" ∨ ∃ r, rest = String "."%char r).
Proof.
  destruct (os_path_basename_spec fasta) as (dir & Hp & Hslash & Hdir).
  destruct (before_first_dot_prefix (os_path_basename fasta)) as (rest & Hb & Hrest).
  exists dir, rest. unfold basename_of. rewrite item0_split_dot.
  rewrite <- Hb. split; [done|]. split; [done|]. split; [done|].
  split; [apply before_first_dot_no_dot|done].
Qed.

(** ** The script and its trace *)

Lemma replay_app es1 es2 w : replay (es1 ++ es2) w = replay es2 (replay es1 w).
Proof. apply foldl_app. Qed.

Lemma trace_replay es w : trace (replay es w) = trace w ++ es.
Proof.
  revert w. induction es as [|e es IH]; intros w; simpl.
  - by rewrite app_nil_r.
  - rewrite IH. destruct e; simpl; by rewrite <- app_assoc.
Qed.

Lemma handles_effect_quiet e w : quiet e → handles (effect e w) = handles w.
Proof. by destruct e. Qed.

Lemma handles_replay_quiet es w :
  Forall quiet es → handles (replay es w) = handles w.
Proof.
  intros H. revert w. induction H as [|e es He _ IH]; intros w; simpl; [done|].
  by rewrite IH, handles_effect_quiet.
Qed.

Lemma tlen_rows_quiet args fasta seqs : Forall quiet (tlen_rows args fasta seqs).
Proof. unfold tlen_rows. apply Forall_fmap, Forall_forall. by intros. Qed.

Lemma write_open path data w :
  path ∈ handles w → write path data w = (Ok tt, effect (EWrite path data) w).
Proof. intros H. unfold write. by rewrite decide_True. Qed.

Lemma reference_loop_run args fasta fh refs join_seq w :
  tlen_path args ∈ handles w →
  reference_loop args fasta (basename_of fasta) fh refs join_seq w
  = (match (fetch_upto fh refs).2 with
     | None => Ok (join_seq ++ (fetch_upto fh refs).1)
     | Some r => Raise (FetchError fasta r)
     end,
     replay (tlen_rows args fasta (fetch_upto fh refs).1) w).
Proof.
  revert join_seq w. induction refs as [|r refs IH]; intros join_seq w Hw; simpl.
  - by rewrite app_nil_r.
  - unfold bind, FastaFile_fetch. destruct (fetch fh r) as [seq|]; simpl; [|done].
    rewrite write_open by done.
    rewrite IH by (by rewrite handles_effect_quiet).
    destruct (fetch_upto fh refs) as [seqs [bad|]]; simpl; [done|].
    by rewrite <- app_assoc.
Qed.

Lemma file_run_quiet E args fasta : Forall quiet (file_run E args fasta).1.
Proof.
  unfold file_run. destruct (pysam_FastaFile E fasta) as [fh|]; simpl.
  - destruct (fetch_upto fh (references fh)) as [seqs [bad|]]; simpl.
    + constructor; [done|apply tlen_rows_quiet].
    + constructor; [done|]. apply Forall_app. split; [apply tlen_rows_quiet|].
      by constructor.
  - by constructor.
Qed.

Lemma loop_run_quiet E args l : Forall quiet (loop_run E args l).1.
Proof.
  induction l as [|f l IH]; simpl; [constructor|].
  pose proof (file_run_quiet E args f) as Hf.
  destruct (file_run E args f) as [es [e|]]; simpl in *; [done|].
  destruct (loop_run E args l) as [es' r]; simpl in *.
  apply Forall_app. by split.
Qed.

Lemma fasta_body_run E args fasta w :
  fa_path args ∈ handles w → tlen_path args ∈ handles w →
  fasta_body E args fasta w
  = (outcome (file_run E args fasta).2, replay (file_run E args fasta).1 w).
Proof.
  intros Hfa Htlen. unfold fasta_body, file_run, bind, FastaFile_open.
  destruct (pysam_FastaFile E fasta) as [fh|]; simpl; [|done].
  rewrite reference_loop_run by done.
  destruct (fetch_upto fh (references fh)) as [seqs [bad|]]; simpl; [done|].
  rewrite replay_app. simpl.
  rewrite write_open; [done|].
  rewrite handles_replay_quiet; [done|apply tlen_rows_quiet].
Qed.

Lemma fasta_loop_run E args l w :
  fa_path args ∈ handles w → tlen_path args ∈ handles w →
  fasta_loop E args l w
  = (outcome (loop_run E args l).2, replay (loop_run E args l).1 w).
Proof.
  revert w. induction l as [|f l IH]; intros w Hfa Htlen; simpl; [done|].
  unfold bind. rewrite fasta_body_run by done.
  pose proof (file_run_quiet E args f) as Hq.
  destruct (file_run E args f) as [es [e|]]; simpl in *; [done|].
  rewrite IH by (by rewrite handles_replay_quiet).
  destruct (loop_run E args l) as [es' r]; simpl. by rewrite replay_app.
Qed.

(** The script performs exactly the events of [script_run], whatever the
    world it starts in. *)
Lemma script_denote E args w :
  script E args w = ((script_run E args).2, replay (script_run E args).1 w).
Proof.
  unfold script, prepare, script_run, bind. simpl.
  rewrite fasta_loop_run by (simpl; set_solver).
  destruct (loop_run E args (fasta args)) as [es [e|]]; simpl; [done|].
  unfold tail_run, align, render, bind, call, print. simpl.
  destruct (subprocess_call E (mapper_argv args)) as [rc|]; simpl.
  - rewrite !replay_app. simpl.
    by destruct (subprocess_call E (minidotr_argv args)).
  - by rewrite !replay_app.
Qed.

Lemma fa_tlen_distinct args : fa_path args ≠ tlen_path args.
Proof. unfold fa_path, tlen_path. intros H. by apply append_inv_head in H. Qed.

Lemma fa_paf_distinct args : fa_path args ≠ paf_path args.
Proof. unfold fa_path, paf_path. intros H. by apply append_inv_head in H. Qed.

Lemma tlen_paf_distinct args : tlen_path args ≠ paf_path args.
Proof. unfold tlen_path, paf_path. intros H. by apply append_inv_head in H. Qed.

Lemma writes_to_app p es1 es2 :
  writes_to p (es1 ++ es2) = writes_to p es1 ++ writes_to p es2.
Proof.
  induction es1 as [|e es1 IH]; simpl; [done|].
  destruct e; try done. case_decide; by rewrite IH.
Qed.

Lemma calls_app es1 es2 : calls (es1 ++ es2) = calls es1 ++ calls es2.
Proof.
  induction es1 as [|e es1 IH]; simpl; [done|]. destruct e; by rewrite ?IH.
Qed.

Lemma fasta_opened_app es1 es2 :
  fasta_opened (es1 ++ es2) = fasta_opened es1 ++ fasta_opened es2.
Proof.
  induction es1 as [|e es1 IH]; simpl; [done|]. destruct e; by rewrite ?IH.
Qed.

Lemma calls_quiet es : Forall quiet es → calls es = [].
Proof. induction 1 as [|e es He _ IH]; simpl; [done|]. by destruct e. Qed.

Lemma writes_to_tlen_rows_same args fasta seqs :
  writes_to (tlen_path args) (tlen_rows args fasta seqs)
  = tlen_line (basename_of fasta) <$> seqs.
Proof.
  induction seqs as [|s seqs IH]; simpl; [done|].
  by rewrite decide_True, IH.
Qed.

Lemma writes_to_tlen_rows_other p args fasta seqs :
  p ≠ tlen_path args → writes_to p (tlen_rows args fasta seqs) = [].
Proof.
  intros Hp. induction seqs as [|s seqs IH]; simpl; [done|].
  by rewrite decide_False.
Qed.

Lemma fasta_opened_tlen_rows args fasta seqs :
  fasta_opened (tlen_rows args fasta seqs) = [].
Proof. by induction seqs. Qed.

Lemma writes_to_fa_file_events args fasta seqs :
  writes_to (fa_path args) (file_events args fasta seqs)
  = [fasta_entry (basename_of fasta) seqs].
Proof.
  unfold file_events. simpl. rewrite writes_to_app.
  rewrite writes_to_tlen_rows_other by apply fa_tlen_distinct.
  simpl. by rewrite decide_True.
Qed.

Lemma writes_to_tlen_file_events args fasta seqs :
  writes_to (tlen_path args) (file_events args fasta seqs)
  = tlen_line (basename_of fasta) <$> seqs.
Proof.
  unfold file_events. simpl. rewrite writes_to_app, writes_to_tlen_rows_same.
  simpl. rewrite decide_False; [by rewrite app_nil_r|apply fa_tlen_distinct].
Qed.

Lemma writes_to_fa_loop_events args l seqss :
  writes_to (fa_path args) (loop_events args l seqss)
  = zip_with (fun fasta seqs => fasta_entry (basename_of fasta) seqs) l seqss.
Proof.
  unfold loop_events. revert seqss.
  induction l as [|f l IH]; intros [|seqs seqss]; try done.
  cbn [zip_with concat].
  by rewrite writes_to_app, IH, writes_to_fa_file_events.
Qed.

Lemma writes_to_tlen_loop_events args l seqss :
  writes_to (tlen_path args) (loop_events args l seqss)
  = concat (zip_with (fun fasta seqs => tlen_line (basename_of fasta) <$> seqs)
              l seqss).
Proof.
  unfold loop_events. revert seqss.
  induction l as [|f l IH]; intros [|seqs seqss]; try done.
  cbn [zip_with concat].
  by rewrite writes_to_app, IH, writes_to_tlen_file_events.
Qed.

Lemma fasta_opened_loop_events args l seqss :
  length l = length seqss → fasta_opened (loop_events args l seqss) = l.
Proof.
  unfold loop_events. revert seqss.
  induction l as [|f l IH]; intros [|seqs seqss]; try done.
  intros [=Hlen]. cbn [zip_with concat]. unfold file_events at 1.
  cbn [fasta_opened app]. rewrite <- app_assoc, !fasta_opened_app.
  rewrite fasta_opened_tlen_rows. cbn [fasta_opened app]. by rewrite IH.
Qed.

Lemma fetch_upto_ok fh refs seqs :
  mapM (fetch fh) refs = Some seqs → fetch_upto fh refs = (seqs, None).
Proof.
  rewrite mapM_Some. induction 1 as [|r s refs seqs Hr _ IH]; simpl; [done|].
  by rewrite Hr, IH.
Qed.

Lemma file_run_ok E args fasta seqs :
  read_fasta E fasta = Some seqs →
  file_run E args fasta = (file_events args fasta seqs, None).
Proof.
  unfold read_fasta, file_run, sequences.
  destruct (pysam_FastaFile E fasta) as [fh|]; [|done].
  intros H. by rewrite (fetch_upto_ok _ _ _ H).
Qed.

Lemma loop_run_ok E args l seqss :
  mapM (read_fasta E) l = Some seqss →
  loop_run E args l = (loop_events args l seqss, None).
Proof.
  rewrite mapM_Some. induction 1 as [|f seqs l seqss Hf _ IH]; simpl; [done|].
  by rewrite (file_run_ok _ _ _ _ Hf), IH.
Qed.

Lemma files_replay_quiet p es w old :
  Forall quiet es → files w !! p = Some old →
  files (replay es w) !! p = Some (old +:+ join (writes_to p es)).
Proof.
  intros H. revert w old.
  induction H as [|e es He _ IH]; intros w old Hw; simpl.
  - by rewrite append_nil_r.
  - destruct e as [|p' d| | | |]; try done; simpl.
    + case_decide as Hp.
      * subst p'. simpl. rewrite <- append_assoc. apply IH. simpl.
        by rewrite lookup_insert_eq, Hw.
      * apply IH. simpl. by rewrite lookup_insert_ne.
    + by apply IH.
Qed.

Lemma prepare_denote E args w :
  prepare E args w = ((prepare_run E args).2, replay (prepare_run E args).1 w).
Proof.
  unfold prepare, prepare_run, bind. simpl.
  rewrite fasta_loop_run by (simpl; set_solver).
  destruct (loop_run E args (fasta args)) as [es [e|]]; simpl; [done|].
  by rewrite !replay_app.
Qed.

(** The script is the preparer followed by the two child processes. *)
Lemma script_run_prepare E args :
  script_run E args
  = match (prepare_run E args).2 with
    | Raise e => ((prepare_run E args).1, Raise e)
    | Ok _ => ((prepare_run E args).1
                 ++ tl (tail_run E args).1, (tail_run E args).2)
    end.
Proof.
  unfold script_run, prepare_run.
  destruct (loop_run E args (fasta args)) as [es [e|]]; simpl; [done|].
  unfold tail_run.
  destruct (subprocess_call E (mapper_argv args)); simpl;
    by rewrite <- !app_assoc.
Qed.

Lemma files_after_opens E args w p :
  p = fa_path args ∨ p = tlen_path args →
  files (replay (prepare_run E args).1 w) !! p
  = Some (join (writes_to p (prepare_run E args).1)).
Proof.
  intros Hp. pose proof (fa_tlen_distinct args) as Hne.
  pose proof (loop_run_quiet E args (fasta args)) as Hq.
  unfold prepare_run.
  destruct (loop_run E args (fasta args)) as [es r]; simpl in Hq.
  set (w1 := replay [EOpen (fa_path args); EOpen (tlen_path args)] w).
  assert (files w1 !! p = Some "") as Hw1.
  { subst w1. simpl. destruct Hp as [-> | ->].
    - by rewrite lookup_insert_ne, lookup_insert_eq.
    - by rewrite lookup_insert_eq. }
  assert (files (replay es w1) !! p = Some (join (writes_to p es))) as Hes.
  { by rewrite (files_replay_quiet p es w1 "" Hq Hw1). }
  destruct r as [e|]; cbn [fst].
  - rewrite replay_app. fold w1. by rewrite writes_to_app.
  - rewrite !replay_app. fold w1. rewrite !writes_to_app. simpl.
    by rewrite app_nil_r.
Qed.

Lemma prepare_run_ok E args seqss :
  mapM (read_fasta E) (fasta args) = Some seqss →
  prepare_run E args
  = ([EOpen (fa_path args); EOpen (tlen_path args)]
       ++ loop_events args (fasta args) seqss ++ [EClose (tlen_path args)],
     Ok tt).
Proof. intros H. unfold prepare_run. by rewrite (loop_run_ok _ _ _ _ H). Qed.

Lemma zip_with_length_same {A B C} (f : A → B → C) l k :
  length l = length k → length (zip_with f l k) = length l.
Proof. intros H. rewrite length_zip_with. lia. Qed.

Lemma rows_length (l : list string) (seqss : list (list string)) (g : string → string → string) :
  length l = length seqss →
  length (concat (zip_with (fun fasta seqs => g fasta <$> seqs) l seqss))
  = length (concat seqss).
Proof.
  revert seqss. induction l as [|f l IH]; intros [|seqs seqss]; try done.
  intros [=Hlen]. cbn [zip_with concat]. rewrite !length_app, length_fmap.
  by rewrite IH.
Qed.

Lemma elem_of_concat {A} (x : A) (ls : list (list A)) :
  x ∈ concat ls → ∃ l, x ∈ l ∧ l ∈ ls.
Proof.
  induction ls as [|l ls IH]; simpl; [by intros ?%elem_of_nil|].
  intros [Hx|Hx]%elem_of_app.
  - exists l. split; [done|left].
  - destruct (IH Hx) as (l' & ? & ?). exists l'. split; [done|by right].
Qed.

(** What a run of the preparer leaves behind when every FASTA is read to its
    end. *)
Lemma prepare_ok E args seqss :
  mapM (read_fasta E) (fasta args) = Some seqss →
  ∃ w, prepare E args init_world = (Ok tt, w)
    ∧ length (fasta args) = length seqss
    ∧ fasta_opened (trace w) = fasta args
    ∧ writes_to (fa_path args) (trace w)
      = zip_with (fun fasta seqs => fasta_entry (basename_of fasta) seqs)
          (fasta args) seqss
    ∧ writes_to (tlen_path args) (trace w)
      = concat (zip_with (fun fasta seqs => tlen_line (basename_of fasta) <$> seqs)
                  (fasta args) seqss)
    ∧ files w !! fa_path args
      = Some (join (writes_to (fa_path args) (trace w)))
    ∧ files w !! tlen_path args
      = Some (join (writes_to (tlen_path args) (trace w))).
Proof.
  intros Hread.
  assert (length (fasta args) = length seqss) as Hlen.
  { apply mapM_Some in Hread. by eapply Forall2_length. }
  pose proof (files_after_opens E args init_world) as Hfiles.
  eexists. rewrite prepare_denote. rewrite trace_replay.
  rewrite (prepare_run_ok _ _ _ Hread) in *. cbn [fst snd] in *.
  split; [done|]. split; [done|].
  change (trace init_world) with (@nil event). rewrite app_nil_l.
  split.
  { cbn [app fasta_opened]. rewrite fasta_opened_app. simpl.
    by rewrite app_nil_r, fasta_opened_loop_events. }
  split.
  { cbn [app writes_to]. rewrite writes_to_app. simpl.
    by rewrite app_nil_r, writes_to_fa_loop_events. }
  split.
  { cbn [app writes_to]. rewrite writes_to_app. simpl.
    by rewrite app_nil_r, writes_to_tlen_loop_events. }
  split; apply Hfiles; auto.
Qed.

(** C1: when the N input FASTA files hold S sequences in total, the
    preparer finishes and writes to P.fa exactly one entry per input file,
    [>name NL sequences NL] with the file's sequences joined, N entries
    whatever the number of sequences in each file, and to P.tlen exactly one
    row per sequence, [name TAB length NL] with the name of the sequence's
    file and the length of the sequence, S rows in all; the two files hold
    these writes and nothing else. *)
Theorem C1_entry_and_row_counts E args seqss :
  mapM (read_fasta E) (fasta args) = Some seqss →
  ∃ w, prepare E args init_world = (Ok tt, w)
    ∧ writes_to (fa_path args) (trace w)
      = zip_with (fun path seqs =>
                    ">" +:+ basename_of path +:+ NL +:+ join seqs +:+ NL)
          (fasta args) seqss
    ∧ writes_to (tlen_path args) (trace w)
      = concat (zip_with
                  (fun path seqs =>
                     (fun seq => basename_of path +:+ TAB
                                   +:+ pretty (String.length seq) +:+ NL) <$> seqs)
                  (fasta args) seqss)
    ∧ length (writes_to (fa_path args) (trace w)) = length (fasta args)
    ∧ length (writes_to (tlen_path args) (trace w)) = length (concat seqss)
    ∧ files w !! fa_path args
      = Some (join (writes_to (fa_path args) (trace w)))
    ∧ files w !! tlen_path args
      = Some (join (writes_to (tlen_path args) (trace w)))
    ∧ Forall (fun entry => ∃ name body, entry = ">" +:+ name +:+ NL +:+ body +:+ NL)
        (writes_to (fa_path args) (trace w))
    ∧ Forall (fun row => ∃ name (n : nat), row = name +:+ TAB +:+ pretty n +:+ NL)
        (writes_to (tlen_path args) (trace w)).
Proof.
  intros Hread.
  destruct (prepare_ok E args seqss Hread)
    as (w & Hrun & Hlen & _ & Hfa & Htlen & Hffa & Hftlen).
  exists w. split; [done|].
  split; [exact Hfa|]. split; [exact Htlen|].
  split. { by rewrite Hfa, zip_with_length_same. }
  split. { by rewrite Htlen, rows_length. }
  split; [done|]. split; [done|].
  rewrite Hfa, Htlen. clear. split.
  - apply Forall_forall. intros entry Hin.
    apply elem_of_lookup_zip_with in Hin as (i & f & seqs & -> & _).
    by exists (basename_of f), (join seqs).
  - apply Forall_forall. intros row Hin.
    apply elem_of_concat in Hin as (rows & Hrow & Hrows).
    apply elem_of_lookup_zip_with in Hrows as (i & f & seqs & -> & _).
    apply list_elem_of_fmap in Hrow as (seq & -> & _).
    by exists (basename_of f), (String.length seq).
Qed.

Lemma C1_entry_and_row_counts_witness :
  mapM (read_fasta Sample.env) (fasta Sample.mixed) = Some Sample.mixed_seqs
  ∧ ∃ w, prepare Sample.env Sample.mixed init_world = (Ok tt, w)
      ∧ writes_to "out.fa" (trace w)
        = [">a" +:+ NL +:+ Sample.bases 100 "A" +:+ NL;
           ">genome" +:+ NL +:+ "ACGTGGTTT" +:+ NL]
      ∧ writes_to "out.tlen" (trace w)
        = ["a" +:+ TAB +:+ "100" +:+ NL; "genome" +:+ TAB +:+ "4" +:+ NL;
           "genome" +:+ TAB +:+ "2" +:+ NL; "genome" +:+ TAB +:+ "3" +:+ NL]
      ∧ length (writes_to "out.fa" (trace w)) = 2
      ∧ length (writes_to "out.tlen" (trace w)) = 4
      ∧ files w !! "out.tlen"
        = Some ("a" +:+ TAB +:+ "100" +:+ NL +:+ "genome" +:+ TAB +:+ "4" +:+ NL
                  +:+ "genome" +:+ TAB +:+ "2" +:+ NL
                  +:+ "genome" +:+ TAB +:+ "3" +:+ NL).
Proof.
  split; [vm_compute; reflexivity|].
  destruct (C1_entry_and_row_counts Sample.env Sample.mixed Sample.mixed_seqs)
    as (w & Hrun & Hentries & Hrows & Hfa & Htlen & _ & Hfile & _);
    [vm_compute; reflexivity|].
  exists w. split; [exact Hrun|]. split; [exact Hentries|].
  split; [exact Hrows|]. split; [exact Hfa|]. split; [exact Htlen|].
  transitivity (Some (join (writes_to (tlen_path Sample.mixed) (trace w))));
    [exact Hfile|].
  rewrite Hrows. vm_compute. reflexivity.
Defined.

(** C2: the order of the output follows the order of the input.  The
    FASTA files are opened in argument order; the entries of P.fa are, in
    argument order, one per file, each holding the file's sequences joined in
    the order of its references; the rows of P.tlen are the rows of the first
    file in the order of its references, then those of the second file, and
    so on. *)
Theorem C2_output_order E args seqss :
  mapM (read_fasta E) (fasta args) = Some seqss →
  ∃ w, prepare E args init_world = (Ok tt, w)
    ∧ Forall2 (fun path seqs =>
                 ∃ fh, pysam_FastaFile E path = Some fh
                       ∧ Forall2 (fun reference seq => fetch fh reference = Some seq)
                           (references fh) seqs)
        (fasta args) seqss
    ∧ fasta_opened (trace w) = fasta args
    ∧ writes_to (fa_path args) (trace w)
      = zip_with (fun path seqs =>
                    ">" +:+ basename_of path +:+ NL +:+ join seqs +:+ NL)
          (fasta args) seqss
    ∧ writes_to (tlen_path args) (trace w)
      = concat (zip_with
                  (fun path seqs =>
                     (fun seq => basename_of path +:+ TAB
                                   +:+ pretty (String.length seq) +:+ NL) <$> seqs)
                  (fasta args) seqss)
    ∧ files w !! fa_path args
      = Some (join (writes_to (fa_path args) (trace w)))
    ∧ files w !! tlen_path args
      = Some (join (writes_to (tlen_path args) (trace w))).
Proof.
  intros Hread.
  destruct (prepare_ok E args seqss Hread)
    as (w & Hrun & Hlen & Hopened & Hfa & Htlen & Hffa & Hftlen).
  exists w. split; [done|]. split; [|done].
  apply mapM_Some in Hread. eapply Forall2_impl; [exact Hread|].
  intros path seqs. unfold read_fasta, sequences.
  destruct (pysam_FastaFile E path) as [fh|]; [|done].
  intros Hseqs. exists fh. split; [done|]. by apply mapM_Some.
Qed.

Lemma C2_output_order_witness :
  mapM (read_fasta Sample.env) (fasta Sample.mixed) = Some Sample.mixed_seqs
  ∧ ∃ w, prepare Sample.env Sample.mixed init_world = (Ok tt, w)
      ∧ fasta_opened (trace w) = ["a.fa"; "dir/genome.fa.gz"]
      ∧ writes_to "out.fa" (trace w)
        = [">a" +:+ NL +:+ Sample.bases 100 "A" +:+ NL;
           ">genome" +:+ NL +:+ "ACGTGGTTT" +:+ NL]
      ∧ writes_to "out.tlen" (trace w)
        = ["a" +:+ TAB +:+ "100" +:+ NL; "genome" +:+ TAB +:+ "4" +:+ NL;
           "genome" +:+ TAB +:+ "2" +:+ NL; "genome" +:+ TAB +:+ "3" +:+ NL].
Proof.
  split; [vm_compute; reflexivity|].
  destruct (C2_output_order Sample.env Sample.mixed Sample.mixed_seqs)
    as (w & Hrun & _ & Hopened & Hfa & Htlen & _); [vm_compute; reflexivity|].
  exists w. split; [exact Hrun|]. split; [exact Hopened|].
  split; [exact Hfa|exact Htlen].
Defined.

Lemma zip_with_middle {A B C} (f : A → B → C) l k i x y :
  length l = length k → l !! i = Some x → k !! i = Some y →
  zip_with f l k
  = zip_with f (take i l) (take i k) ++ f x y
      :: zip_with f (drop (S i) l) (drop (S i) k).
Proof.
  intros Hlen Hl Hk.
  rewrite <- (take_drop_middle l i x Hl) at 1.
  rewrite <- (take_drop_middle k i y Hk) at 1.
  rewrite zip_with_app; [done|].
  rewrite !length_take. lia.
Qed.

(** C3: the name written for an input path, in its entry of P.fa and in
    each of its rows of P.tlen, is the part of the path's base name before
    its first dot: the path is [dir ++ name ++ rest] where [dir] is empty or
    ends with a slash, [name ++ rest] has no slash, [name] has no dot and
    [rest] is empty or starts with a dot. *)
Theorem C3_entry_name E args seqss i path seqs :
  mapM (read_fasta E) (fasta args) = Some seqss →
  fasta args !! i = Some path →
  seqss !! i = Some seqs →
  ∃ w name dir rest before after,
    prepare E args init_world = (Ok tt, w)
    ∧ name = before_first_dot (os_path_basename path)
    ∧ path = dir +:+ name +:+ rest
    ∧ (dir = "" ∨ ∃ d, dir = d +:+ "/")
    ∧ occurs "/"%char (name +:+ rest) = false
    ∧ occurs "."%char name = false
    ∧ (rest = "" ∨ ∃ r, rest = String "."%char r)
    ∧ writes_to (fa_path args) (trace w) !! i
      = Some (">" +:+ name +:+ NL +:+ join seqs +:+ NL)
    ∧ writes_to (tlen_path args) (trace w)
      = before
          ++ ((fun seq => name +:+ TAB +:+ pretty (String.length seq) +:+ NL)
                <$> seqs)
          ++ after
    ∧ length before = length (concat (take i seqss)).
Proof.
  intros Hread Hpath Hseqs.
  destruct (prepare_ok E args seqss Hread)
    as (w & Hrun & Hlen & _ & Hfa & Htlen & _).
  destruct (basename_of_spec path) as (dir & rest & Hsplit & Hdir & Hslash & Hdot & Hrest).
  exists w, (basename_of path), dir, rest.
  eexists _, _. split; [done|].
  split. { unfold basename_of. apply item0_split_dot. }
  do 5 (split; [done|]).
  split.
  { rewrite Hfa, lookup_zip_with, Hpath. simpl. by rewrite Hseqs. }
  rewrite Htlen.
  rewrite (zip_with_middle _ _ _ i path seqs Hlen Hpath Hseqs).
  rewrite concat_app. cbn [concat]. split; [reflexivity|].
  rewrite rows_length; [done|]. rewrite !length_take. lia.
Qed.

Lemma C3_entry_name_witness :
  mapM (read_fasta Sample.env) (fasta Sample.mixed) = Some Sample.mixed_seqs
  ∧ fasta Sample.mixed !! 1 = Some "dir/genome.fa.gz"
  ∧ Sample.mixed_seqs !! 1 = Some ["ACGT"; "GG"; "TTT"]
  ∧ ∃ w before after,
      prepare Sample.env Sample.mixed init_world = (Ok tt, w)
      ∧ writes_to "out.fa" (trace w) !! 1
        = Some (">genome" +:+ NL +:+ "ACGTGGTTT" +:+ NL)
      ∧ writes_to "out.tlen" (trace w)
        = before
            ++ ["genome" +:+ TAB +:+ "4" +:+ NL; "genome" +:+ TAB +:+ "2" +:+ NL;
                "genome" +:+ TAB +:+ "3" +:+ NL]
            ++ after
      ∧ length before = 1.
Proof.
  split; [vm_compute; reflexivity|].
  split; [vm_compute; reflexivity|].
  split; [vm_compute; reflexivity|].
  destruct (C3_entry_name Sample.env Sample.mixed Sample.mixed_seqs 1
              "dir/genome.fa.gz" ["ACGT"; "GG"; "TTT"])
    as (w & name & dir & rest & before & after & Hrun & -> & _ & _ & _ & _ & _
        & Hfa & Htlen & Hlen);
    [vm_compute; reflexivity..|].
  exists w, before, after.
  split; [exact Hrun|]. split; [exact Hfa|]. split; [exact Htlen|exact Hlen].
Defined.

(** The example of the specification: [genome.fa.gz] is named [genome]. *)
Example basename_of_genome :
  basename_of "genome.fa.gz" = "genome"
  ∧ basename_of "/data/v1.2/genome.fa.gz" = "genome"
  ∧ basename_of "assembly" = "assembly".
Proof. by vm_compute. Qed.

(** ** The child processes *)

Lemma main_parsed E c args :
  parse_args c = Some args →
  main E c = (exit_status (script_run E args).2,
              replay (script_run E args).1 init_world).
Proof. intros H. unfold main. by rewrite H, script_denote. Qed.

Lemma trace_main E c args :
  parse_args c = Some args → trace (main E c).2 = (script_run E args).1.
Proof.
  intros H. rewrite (main_parsed _ _ _ H). cbn [snd]. by rewrite trace_replay.
Qed.

Lemma trace_script E args :
  trace (script E args init_world).2 = (script_run E args).1.
Proof. rewrite script_denote. cbn [snd]. by rewrite trace_replay. Qed.

Lemma parse_args_fields c args :
  parse_args c = Some args →
  args = {| minidotr := c_minidotr c;
            output := c_output c;
            fasta := c_fasta c;
            mapper := default "minimap2" (c_mapper c);
            mode := default "asm10" (c_mode c);
            tmp := default "/tmp" (c_tmp c);
            width := default "20" (c_width c);
            thick := default "2" (c_thick c);
            title := c_title c;
            no_self := c_no_self c;
            strip := c_strip c;
            identity := default "0.0" (c_identity c) |}.
Proof. unfold parse_args. destruct (c_fasta c); [done|]. by intros [= <-]. Qed.

(** The child processes of a run: none when the preparer fails, the aligner
    alone when it cannot be spawned, otherwise the aligner and then the
    renderer. *)
Lemma calls_script_run E args :
  calls (script_run E args).1
  = match (loop_run E args (fasta args)).2 with
    | Some _ => []
    | None =>
        (mapper_argv args, Some (paf_path args))
          :: match subprocess_call E (mapper_argv args) with
             | Some _ => [(minidotr_argv args, None)]
             | None => []
             end
    end.
Proof.
  unfold script_run. pose proof (loop_run_quiet E args (fasta args)) as Hq.
  destruct (loop_run E args (fasta args)) as [es [e|]]; simpl in *.
  - by rewrite (calls_quiet es Hq).
  - unfold tail_run.
    destruct (subprocess_call E (mapper_argv args)); simpl;
      by rewrite calls_app, (calls_quiet es Hq).
Qed.

Lemma path_of_prefix args suffix :
  prefix args +:+ suffix = before_first_dot (output args) +:+ "." +:+ suffix.
Proof. unfold prefix. by rewrite item0_split_dot, append_assoc. Qed.

(** C4: with P the part of the output path before its first dot, the first
    child process of a run is the aligner, spawned with the argument vector
    [<mapper> -x <mode> --no-long-join --dual=yes -P P.fa P.fa] and with its
    standard output sent to P.paf, where <mapper> and <mode> are the values
    of --mapper and --mode or else [minimap2] and [asm10]; and the aligner is
    spawned in every run whose FASTA files are all read. *)
Theorem C4_aligner_invocation E c args :
  parse_args c = Some args →
  (∀ argv stdout later,
     calls (trace (main E c).2) = (argv, stdout) :: later →
     argv = [default "minimap2" (c_mapper c); "-x"; default "asm10" (c_mode c);
             "--no-long-join"; "--dual=yes"; "-P";
             before_first_dot (c_output c) +:+ ".fa";
             before_first_dot (c_output c) +:+ ".fa"]
     ∧ stdout = Some (before_first_dot (c_output c) +:+ ".paf"))
  ∧ (∀ seqss,
       mapM (read_fasta E) (fasta args) = Some seqss →
       ∃ later,
         calls (trace (main E c).2)
         = ([default "minimap2" (c_mapper c); "-x"; default "asm10" (c_mode c);
             "--no-long-join"; "--dual=yes"; "-P";
             before_first_dot (c_output c) +:+ ".fa";
             before_first_dot (c_output c) +:+ ".fa"],
            Some (before_first_dot (c_output c) +:+ ".paf")) :: later).
Proof.
  intros Hparse. rewrite (trace_main _ _ _ Hparse), calls_script_run.
  assert (mapper_argv args
          = [default "minimap2" (c_mapper c); "-x"; default "asm10" (c_mode c);
             "--no-long-join"; "--dual=yes"; "-P";
             before_first_dot (c_output c) +:+ ".fa";
             before_first_dot (c_output c) +:+ ".fa"]) as Hargv.
  { unfold mapper_argv, fa_path. rewrite path_of_prefix.
    by rewrite (parse_args_fields _ _ Hparse). }
  assert (paf_path args = before_first_dot (c_output c) +:+ ".paf") as Hpaf.
  { unfold paf_path. rewrite path_of_prefix.
    by rewrite (parse_args_fields _ _ Hparse). }
  rewrite Hargv, Hpaf. split.
  - intros argv stdout later.
    destruct (loop_run E args (fasta args)).2; [done|].
    by intros [= <- <- _].
  - intros seqss Hread. rewrite (loop_run_ok _ _ _ _ Hread). simpl.
    by eexists.
Qed.

Lemma C4_aligner_invocation_witness :
  parse_args (Sample.plain ["a.fa"; "b.fa"]) = Some Sample.pair
  ∧ mapM (read_fasta Sample.env) (fasta Sample.pair) = Some Sample.pair_seqs
  ∧ ∃ later,
      calls (trace (main Sample.env (Sample.plain ["a.fa"; "b.fa"])).2)
      = (["minimap2"; "-x"; "asm10"; "--no-long-join"; "--dual=yes"; "-P";
          "out.fa"; "out.fa"], Some "out.paf") :: later.
Proof.
  split; [vm_compute; reflexivity|].
  split; [vm_compute; reflexivity|].
  destruct (C4_aligner_invocation Sample.env (Sample.plain ["a.fa"; "b.fa"])
              Sample.pair) as [_ Hspawned]; [vm_compute; reflexivity|].
  apply (Hspawned Sample.pair_seqs). vm_compute; reflexivity.
Defined.

Lemma C5_not_exactly_when_supplied :
  ¬ forwarded_exactly_when_supplied (Sample.plain ["a.fa"; "b.fa"]).
Proof.
  intros Hclaim.
  destruct (Hclaim Sample.pair eq_refl) as (_ & _ & _ & [Hwidth _] & _).
  assert ("--width" ∈ Rargs Sample.pair) as Hin.
  { apply (bool_decide_unpack _). by vm_compute. }
  destruct (Hwidth Hin) as [w Hw]. discriminate Hw.
Qed.

(** C5 (amended): the renderer's arguments are [-i P.paf -l P.tlen -o
    <output>], then [--no-self] and [--strip], each exactly when it was
    given, then [--title <t>] when a title was given and is not empty, then
    [--width <w>], [--thick <t>] and [--identity <i>] with the value given or
    else the default [20], [2], [0.0], each left out only when that value is
    the empty string.  The renderer is the only child process without a
    redirected output, and it is the last child process of every run that
    reads all its FASTA files and spawns the aligner. *)
Theorem C5_renderer_arguments E c args :
  parse_args c = Some args →
  Rargs args
  = ["-i"; before_first_dot (c_output c) +:+ ".paf";
     "-l"; before_first_dot (c_output c) +:+ ".tlen";
     "-o"; c_output c]
      ++ (if c_no_self c then ["--no-self"] else [])
      ++ (if c_strip c then ["--strip"] else [])
      ++ forwarded "--title" (c_title c)
      ++ forwarded "--width" (Some (default "20" (c_width c)))
      ++ forwarded "--thick" (Some (default "2" (c_thick c)))
      ++ forwarded "--identity" (Some (default "0.0" (c_identity c)))
  ∧ (∀ argv, (argv, None) ∈ calls (trace (main E c).2) →
             argv = c_minidotr c :: Rargs args)
  ∧ (∀ seqss rc,
       mapM (read_fasta E) (fasta args) = Some seqss →
       subprocess_call E (mapper_argv args) = Some rc →
       last (calls (trace (main E c).2))
       = Some (c_minidotr c :: Rargs args, None)).
Proof.
  intros Hparse.
  assert (paf_path args = before_first_dot (c_output c) +:+ ".paf") as Hpaf.
  { unfold paf_path. rewrite path_of_prefix.
    by rewrite (parse_args_fields _ _ Hparse). }
  assert (tlen_path args = before_first_dot (c_output c) +:+ ".tlen") as Htlen.
  { unfold tlen_path. rewrite path_of_prefix.
    by rewrite (parse_args_fields _ _ Hparse). }
  assert (minidotr_argv args = c_minidotr c :: Rargs args) as Hargv.
  { unfold minidotr_argv. by rewrite (parse_args_fields _ _ Hparse) at 1. }
  split; [|split].
  - unfold Rargs. rewrite Hpaf, Htlen.
    rewrite (parse_args_fields _ _ Hparse). cbn [no_self strip title width
      thick identity output].
    destruct (c_no_self c), (c_strip c), (c_title c) as [[|? ?]|],
      (c_width c) as [[|? ?]|], (c_thick c) as [[|? ?]|],
      (c_identity c) as [[|? ?]|]; reflexivity.
  - intros argv. rewrite (trace_main _ _ _ Hparse), calls_script_run.
    destruct (loop_run E args (fasta args)).2; [by intros ?%elem_of_nil|].
    rewrite Hargv. intros Hin.
    destruct (subprocess_call E (mapper_argv args));
      repeat (apply elem_of_cons in Hin as [Heq|Hin]; [congruence|]);
      by apply elem_of_nil in Hin.
  - intros seqss rc Hread Hrc.
    rewrite (trace_main _ _ _ Hparse), calls_script_run.
    by rewrite (loop_run_ok _ _ _ _ Hread), Hrc, Hargv.
Qed.

Lemma C5_renderer_arguments_witness :
  parse_args Sample.titled = Some (Sample.namespace Sample.titled)
  ∧ mapM (read_fasta Sample.env) (fasta (Sample.namespace Sample.titled))
    = Some Sample.pair_seqs
  ∧ subprocess_call Sample.env (mapper_argv (Sample.namespace Sample.titled))
    = Some 1%Z
  ∧ last (calls (trace (main Sample.env Sample.titled).2))
    = Some (["minidot.R"; "-i"; "out.paf"; "-l"; "out.tlen"; "-o"; "out.pdf";
             "--no-self"; "--title"; "My Plot"; "--width"; "20";
             "--thick"; "2"; "--identity"; "0.0"], None).
Proof.
  split; [vm_compute; reflexivity|].
  split; [vm_compute; reflexivity|].
  split; [vm_compute; reflexivity|].
  destruct (C5_renderer_arguments Sample.env Sample.titled
              (Sample.namespace Sample.titled)) as (_ & _ & Hlast);
    [vm_compute; reflexivity|].
  apply (Hlast Sample.pair_seqs 1%Z); vm_compute; reflexivity.
Defined.

(** The example of the specification: [--title "My Plot" --no-self]. *)
Example Rargs_titled :
  Rargs (Sample.namespace Sample.titled)
  = ["-i"; "out.paf"; "-l"; "out.tlen"; "-o"; "out.pdf"; "--no-self";
     "--title"; "My Plot"; "--width"; "20"; "--thick"; "2";
     "--identity"; "0.0"]
  ∧ "--strip" ∉ Rargs (Sample.namespace Sample.titled).
Proof.
  split; [by vm_compute|].
  apply (bool_decide_unpack _). by vm_compute.
Qed.

Lemma script_run_ok E args seqss :
  mapM (read_fasta E) (fasta args) = Some seqss →
  script_run E args
  = ([EOpen (fa_path args); EOpen (tlen_path args)]
       ++ loop_events args (fasta args) seqss ++ (tail_run E args).1,
     (tail_run E args).2).
Proof.
  intros H. unfold script_run. rewrite (loop_run_ok _ _ _ _ H).
  by destruct (tail_run E args).
Qed.

Lemma C6_exit_code_not_return_code :
  ¬ exit_code_is_last_return_code Sample.env (Sample.plain ["a.fa"; "b.fa"]).
Proof.
  intros Hclaim.
  specialize (Hclaim (minidotr_argv Sample.pair) None 3%Z).
  assert ((main Sample.env (Sample.plain ["a.fa"; "b.fa"])).1 = 3%Z) as Hexit.
  { apply Hclaim; by vm_compute. }
  vm_compute in Hexit. discriminate Hexit.
Qed.

(** C6 (amended): the exit code does not carry any return code.  The script
    drops the return codes of both child processes: a run exits with 0
    exactly when the script runs to its end, and it does so whenever every
    FASTA is read and both child processes are spawned, whatever they
    return; otherwise an exception ends the run and it exits with 1. *)
Theorem C6_exit_status E c args :
  parse_args c = Some args →
  ((main E c).1 = 0%Z ∨ (main E c).1 = 1%Z)
  ∧ ((main E c).1 = 0%Z ↔ ∃ w, script E args init_world = (Ok tt, w))
  ∧ (∀ seqss rc_aligner rc_renderer,
       mapM (read_fasta E) (fasta args) = Some seqss →
       subprocess_call E (mapper_argv args) = Some rc_aligner →
       subprocess_call E (minidotr_argv args) = Some rc_renderer →
       (main E c).1 = 0%Z).
Proof.
  intros Hparse. rewrite (main_parsed _ _ _ Hparse). cbn [fst].
  split; [by destruct (script_run E args).2; auto|].
  split.
  - rewrite script_denote. destruct (script_run E args).2 as [[]|e]; simpl.
    + split; [by eexists|done].
    + split; [done|]. by intros [w [=]].
  - intros seqss rc1 rc2 Hread Hrc1 Hrc2.
    rewrite (script_run_ok _ _ _ Hread). unfold tail_run.
    by rewrite Hrc1, Hrc2.
Qed.

Lemma C6_exit_status_witness :
  parse_args (Sample.plain ["a.fa"; "b.fa"]) = Some Sample.pair
  ∧ mapM (read_fasta Sample.env) (fasta Sample.pair) = Some Sample.pair_seqs
  ∧ subprocess_call Sample.env (mapper_argv Sample.pair) = Some 1%Z
  ∧ subprocess_call Sample.env (minidotr_argv Sample.pair) = Some 3%Z
  ∧ (main Sample.env (Sample.plain ["a.fa"; "b.fa"])).1 = 0%Z.
Proof.
  split; [vm_compute; reflexivity|].
  split; [vm_compute; reflexivity|].
  split; [vm_compute; reflexivity|].
  split; [vm_compute; reflexivity|].
  destruct (C6_exit_status Sample.env (Sample.plain ["a.fa"; "b.fa"])
              Sample.pair) as (_ & _ & Hzero); [vm_compute; reflexivity|].
  apply (Hzero Sample.pair_seqs 1%Z 3%Z); vm_compute; reflexivity.
Defined.

Lemma read_fasta_ext E E' path :
  (∀ p, pysam_FastaFile E' p = pysam_FastaFile E p) →
  read_fasta E' path = read_fasta E path.
Proof. intros H. unfold read_fasta. by rewrite H. Qed.

Lemma mapM_read_fasta_ext E E' l seqss :
  (∀ p, pysam_FastaFile E' p = pysam_FastaFile E p) →
  mapM (read_fasta E) l = Some seqss → mapM (read_fasta E') l = Some seqss.
Proof.
  intros H. rewrite !mapM_Some. intros Hall.
  eapply Forall2_impl; [exact Hall|].
  intros path seqs. by rewrite (read_fasta_ext E E' path H).
Qed.

(** C8: the return code of the aligner is never looked at.  Two runs on
    the same arguments and the same FASTA files, in which the aligner exits
    with whatever codes [rc] and [rc'], perform the same events; both spawn
    the aligner and then the renderer, the latter with an argument vector
    that is computed from the arguments alone. *)
Theorem C8_aligner_status_ignored E E' args seqss rc rc' :
  mapM (read_fasta E) (fasta args) = Some seqss →
  (∀ path, pysam_FastaFile E' path = pysam_FastaFile E path) →
  subprocess_call E (mapper_argv args) = Some rc →
  subprocess_call E' (mapper_argv args) = Some rc' →
  trace (script E args init_world).2 = trace (script E' args init_world).2
  ∧ calls (trace (script E args init_world).2)
    = [(mapper_argv args, Some (paf_path args)); (minidotr_argv args, None)]
  ∧ calls (trace (script E' args init_world).2)
    = [(mapper_argv args, Some (paf_path args)); (minidotr_argv args, None)].
Proof.
  intros Hread Hext Hrc Hrc'.
  pose proof (mapM_read_fasta_ext E E' _ _ Hext Hread) as Hread'.
  rewrite !trace_script, !calls_script_run.
  rewrite (script_run_ok _ _ _ Hread), (script_run_ok _ _ _ Hread').
  rewrite (loop_run_ok _ _ _ _ Hread), (loop_run_ok _ _ _ _ Hread').
  unfold tail_run. by rewrite Hrc, Hrc'.
Qed.

Lemma C8_aligner_status_ignored_witness :
  mapM (read_fasta Sample.env) (fasta Sample.pair) = Some Sample.pair_seqs
  ∧ subprocess_call Sample.env (mapper_argv Sample.pair) = Some 1%Z
  ∧ subprocess_call Sample.env_aligned (mapper_argv Sample.pair) = Some 0%Z
  ∧ trace (script Sample.env Sample.pair init_world).2
    = trace (script Sample.env_aligned Sample.pair init_world).2.
Proof.
  split; [vm_compute; reflexivity|].
  split; [vm_compute; reflexivity|].
  split; [vm_compute; reflexivity|].
  apply (C8_aligner_status_ignored Sample.env Sample.env_aligned Sample.pair
           Sample.pair_seqs 1%Z 0%Z);
    [vm_compute; reflexivity|intros path; reflexivity
    |vm_compute; reflexivity|vm_compute; reflexivity].
Defined.

(** ** The unused option *)

Lemma loop_run_ignores_tmp E m o f mp md x y wd th ti ns st idt l :
  loop_run E {| minidotr := m; output := o; fasta := f; mapper := mp;
                mode := md; tmp := x; width := wd; thick := th; title := ti;
                no_self := ns; strip := st; identity := idt |} l
  = loop_run E {| minidotr := m; output := o; fasta := f; mapper := mp;
                  mode := md; tmp := y; width := wd; thick := th; title := ti;
                  no_self := ns; strip := st; identity := idt |} l.
Proof. induction l as [|path l IH]; simpl; [done|]. by rewrite IH. Qed.

Lemma script_ignores_tmp E m o f mp md x y wd th ti ns st idt w :
  script E {| minidotr := m; output := o; fasta := f; mapper := mp;
              mode := md; tmp := x; width := wd; thick := th; title := ti;
              no_self := ns; strip := st; identity := idt |} w
  = script E {| minidotr := m; output := o; fasta := f; mapper := mp;
                mode := md; tmp := y; width := wd; thick := th; title := ti;
                no_self := ns; strip := st; identity := idt |} w.
Proof.
  rewrite !script_denote. unfold script_run.
  by rewrite (loop_run_ignores_tmp E m o f mp md x y).
Qed.

(** C9: the value of [--tmp] is never read.  Two runs whose command lines
    differ at most in [--tmp] end with the same exit code and in the same
    world: the same files written with the same contents, the same open
    handles, and the same trace of events, hence the same argument vectors
    for both child processes. *)
Theorem C9_tmp_unused E c t1 t2 :
  main E (with_tmp t1 c) = main E (with_tmp t2 c).
Proof.
  unfold main, parse_args, with_tmp. cbn -[script].
  destruct (c_fasta c) as [|path l]; [done|].
  by rewrite (script_ignores_tmp E _ _ _ _ _ (default "/tmp" t1) (default "/tmp" t2)).
Qed.

(** ** A FASTA that cannot be read *)

Lemma fetch_upto_fail fh refs :
  mapM (fetch fh) refs = None → ∃ r, (fetch_upto fh refs).2 = Some r.
Proof.
  induction refs as [|r refs IH]; simpl; [done|].
  destruct (fetch fh r) as [seq|]; simpl; [|by eexists].
  destruct (mapM (fetch fh) refs) as [seqs|]; simpl; [done|].
  intros _. destruct (IH eq_refl) as [r' Hr'].
  destruct (fetch_upto fh refs) as [seqs bad]. simpl in *. by eexists.
Qed.

Lemma file_run_fail E args bad :
  read_fasta E bad = None →
  ∃ e, file_run E args bad
       = (EFasta bad :: (EWrite (tlen_path args) <$> rows_before_failure E bad),
          Some e)
       ∧ (e = FastaError bad ∨ ∃ r, e = FetchError bad r).
Proof.
  unfold read_fasta, file_run, rows_before_failure, sequences.
  destruct (pysam_FastaFile E bad) as [fh|]; [|by eexists; eauto].
  intros [r Hr]%fetch_upto_fail.
  destruct (fetch_upto fh (references fh)) as [seqs bad']. simpl in *. subst bad'.
  eexists. split; [|by eauto].
  unfold tlen_rows. by rewrite <- list_fmap_compose.
Qed.

Lemma loop_run_fail E args good bad rest seqss :
  mapM (read_fasta E) good = Some seqss →
  read_fasta E bad = None →
  ∃ e, loop_run E args (good ++ bad :: rest)
       = (loop_events args good seqss
            ++ EFasta bad :: (EWrite (tlen_path args) <$> rows_before_failure E bad),
          Some e)
       ∧ (e = FastaError bad ∨ ∃ r, e = FetchError bad r).
Proof.
  intros Hgood Hbad.
  destruct (file_run_fail E args bad Hbad) as (e & Hrun & He).
  exists e. split; [|done]. apply mapM_Some in Hgood.
  induction Hgood as [|path seqs good seqss Hpath _ IH]; simpl.
  - by rewrite Hrun.
  - rewrite (file_run_ok _ _ _ _ Hpath), IH. unfold loop_events.
    cbn [zip_with concat]. by rewrite <- app_assoc.
Qed.

Lemma writes_to_rows_same p rows : writes_to p (EWrite p <$> rows) = rows.
Proof.
  induction rows as [|row rows IH]; [done|].
  rewrite fmap_cons. cbn [writes_to]. rewrite decide_True by done.
  by rewrite IH.
Qed.

Lemma writes_to_rows_other p q rows : q ≠ p → writes_to p (EWrite q <$> rows) = [].
Proof.
  intros Hne. induction rows as [|row rows IH]; [done|].
  rewrite fmap_cons. cbn [writes_to]. by rewrite decide_False.
Qed.

Lemma fasta_opened_rows q rows : fasta_opened (EWrite q <$> rows) = [].
Proof. by induction rows. Qed.

Lemma C7_partial_output_left :
  ¬ no_partial_output Sample.env Sample.unreadable.
Proof.
  intros Hclaim.
  assert (∃ path, path ∈ fasta Sample.unreadable
                  ∧ read_fasta Sample.env path = None) as Hfails.
  { exists "missing.fa". split; [|by vm_compute].
    apply (bool_decide_unpack _). by vm_compute. }
  destruct (Hclaim Hfails _ _ (surjective_pairing _)) as [Hfa _].
  vm_compute in Hfa. discriminate Hfa.
Qed.

(** C7 (amended): when a FASTA cannot be read (it does not open, or one of
    its sequences cannot be fetched) and all those before it can, the run
    aborts there with an uncaught exception and exit code 1: no later FASTA
    is opened and no child process is spawned.  Output is nevertheless left
    behind: P.fa holds the entries of the files read before the failing one,
    and P.tlen holds their rows, followed by the rows of the sequences that
    were fetched from the failing file before it failed (none when it did
    not open). *)
Theorem C7_abort_leaves_partial_output E args good bad rest seqss :
  fasta args = good ++ bad :: rest →
  mapM (read_fasta E) good = Some seqss →
  read_fasta E bad = None →
  ∃ e w,
    script E args init_world = (Raise e, w)
    ∧ (e = FastaError bad ∨ ∃ r, e = FetchError bad r)
    ∧ exit_status (script E args init_world).1 = 1%Z
    ∧ fasta_opened (trace w) = good ++ [bad]
    ∧ calls (trace w) = []
    ∧ files w !! fa_path args
      = Some (join (zip_with
                      (fun path seqs =>
                         ">" +:+ basename_of path +:+ NL +:+ join seqs +:+ NL)
                      good seqss))
    ∧ files w !! tlen_path args
      = Some (join (concat (zip_with
                              (fun path seqs =>
                                 (fun seq => basename_of path +:+ TAB
                                    +:+ pretty (String.length seq) +:+ NL) <$> seqs)
                              good seqss)
                    ++ rows_before_failure E bad))
    ∧ (pysam_FastaFile E bad = None → rows_before_failure E bad = []).
Proof.
  intros Hfasta Hgood Hbad.
  destruct (loop_run_fail E args good bad rest seqss Hgood Hbad) as (e & Hloop & He).
  assert (length good = length seqss) as Hlen.
  { apply mapM_Some in Hgood. by eapply Forall2_length. }
  pose proof (files_after_opens E args init_world) as Hfiles.
  pose proof (script_run_prepare E args) as Hscript.
  pose proof (fa_tlen_distinct args) as Hne.
  assert (prepare_run E args
          = ([EOpen (fa_path args); EOpen (tlen_path args)]
               ++ loop_events args good seqss
               ++ EFasta bad
                    :: (EWrite (tlen_path args) <$> rows_before_failure E bad),
             Raise e)) as Hprep.
  { unfold prepare_run. by rewrite Hfasta, Hloop. }
  rewrite Hprep in Hscript, Hfiles. cbn [fst snd] in Hscript, Hfiles.
  exists e. eexists. rewrite script_denote, Hscript. cbn [fst snd].
  split; [done|]. split; [done|]. split; [done|].
  rewrite trace_replay. change (trace init_world) with (@nil event).
  rewrite app_nil_l.
  split.
  { cbn [app fasta_opened]. rewrite fasta_opened_app.
    rewrite fasta_opened_loop_events by done.
    cbn [fasta_opened]. by rewrite fasta_opened_rows. }
  split.
  { cbn [app calls]. rewrite calls_app. cbn [calls].
    rewrite !calls_quiet; [done| |].
    - apply Forall_fmap, Forall_forall. by intros.
    - pose proof (loop_run_quiet E args good) as Hq.
      by rewrite (loop_run_ok _ _ _ _ Hgood) in Hq. }
  split.
  { rewrite Hfiles by auto. cbn [app writes_to]. rewrite writes_to_app.
    cbn [writes_to]. rewrite writes_to_rows_other by done.
    by rewrite app_nil_r, writes_to_fa_loop_events. }
  split.
  { rewrite Hfiles by auto. cbn [app writes_to]. rewrite writes_to_app.
    cbn [writes_to]. rewrite writes_to_rows_same.
    by rewrite writes_to_tlen_loop_events. }
  unfold rows_before_failure. by intros ->.
Qed.

Lemma C7_abort_leaves_partial_output_witness :
  fasta Sample.broken = ["a.fa"] ++ "cut.fa" :: ["b.fa"]
  ∧ mapM (read_fasta Sample.env) ["a.fa"] = Some [[Sample.bases 100 "A"]]
  ∧ read_fasta Sample.env "cut.fa" = None
  ∧ ∃ e w,
      script Sample.env Sample.broken init_world = (Raise e, w)
      ∧ calls (trace w) = []
      ∧ files w !! "out.fa" = Some (">a" +:+ NL +:+ Sample.bases 100 "A" +:+ NL)
      ∧ files w !! "out.tlen"
        = Some ("a" +:+ TAB +:+ "100" +:+ NL +:+ "cut" +:+ TAB +:+ "5" +:+ NL
                  +:+ "cut" +:+ TAB +:+ "2" +:+ NL).
Proof.
  split; [vm_compute; reflexivity|].
  split; [vm_compute; reflexivity|].
  split; [vm_compute; reflexivity|].
  destruct (C7_abort_leaves_partial_output Sample.env Sample.broken
              ["a.fa"] "cut.fa" ["b.fa"] [[Sample.bases 100 "A"]])
    as (e & w & Hrun & _ & _ & _ & Hcalls & Hfa & Htlen & _);
    [vm_compute; reflexivity..|].
  exists e, w. split; [exact Hrun|]. split; [exact Hcalls|].
  split; [exact Hfa|exact Htlen].
Defined.

(** ** Open and closed handles *)

Lemma handles_replay_keeps p es w :
  p ∈ handles w → EClose p ∉ es → p ∈ handles (replay es w).
Proof.
  revert w. induction es as [|e es IH]; intros w Hp Hes; simpl; [done|].
  apply not_elem_of_cons in Hes as [He Hes]. apply IH; [|done].
  destruct e as [q|q d|q|q|argv so|l]; simpl; try done.
  - apply elem_of_union. by right.
  - apply elem_of_difference. split; [done|].
    rewrite elem_of_singleton. congruence.
Qed.

Lemma handles_replay_absent p es w :
  p ∉ handles w → EOpen p ∉ es → p ∉ handles (replay es w).
Proof.
  revert w. induction es as [|e es IH]; intros w Hp Hes; simpl; [done|].
  apply not_elem_of_cons in Hes as [He Hes]. apply IH; [|done].
  destruct e as [q|q d|q|q|argv so|l]; simpl; try done.
  - rewrite elem_of_union, elem_of_singleton. intros [->|Hin]; [|done].
    by apply He.
  - rewrite elem_of_difference. by intros [Hin _].
Qed.

Lemma quiet_not_call es j argv stdout :
  Forall quiet es → es !! j = Some (ECall argv stdout) → False.
Proof.
  intros Hq Hj. apply list_elem_of_lookup_2 in Hj.
  rewrite Forall_forall in Hq. by apply Hq in Hj.
Qed.

Lemma quiet_not_close es p : Forall quiet es → EClose p ∉ es.
Proof. intros Hq Hin. rewrite Forall_forall in Hq. by apply Hq in Hin. Qed.

(** The events after the length table is closed, whichever child process
    fails to spawn. *)
Lemma tail_run_events E args :
  ∃ rest, (tail_run E args).1
          = EClose (tlen_path args) :: EOpen (paf_path args)
              :: ECall (mapper_argv args) (Some (paf_path args)) :: rest
          ∧ rest ⊆ [EClose (paf_path args); EPrint (Rargs args);
                    ECall (minidotr_argv args) None].
Proof.
  unfold tail_run. destruct (subprocess_call E (mapper_argv args)); simpl.
  - by eexists.
  - exists []. split; [done|]. by intros x ?%elem_of_nil.
Qed.

(** The trace of a run: the two opens, the events of the loop, and, when
    the loop ends without an exception, the close of the length table and
    what follows it. *)
Lemma script_run_shape E args :
  ∃ es, Forall quiet es
    ∧ ((script_run E args).1
       = [EOpen (fa_path args); EOpen (tlen_path args)] ++ es
       ∨ ∃ rest,
           (script_run E args).1
           = ([EOpen (fa_path args); EOpen (tlen_path args)] ++ es)
               ++ EClose (tlen_path args) :: rest
           ∧ rest ⊆ [EOpen (paf_path args);
                     ECall (mapper_argv args) (Some (paf_path args));
                     EClose (paf_path args); EPrint (Rargs args);
                     ECall (minidotr_argv args) None]).
Proof.
  unfold script_run. pose proof (loop_run_quiet E args (fasta args)) as Hq.
  destruct (loop_run E args (fasta args)) as [es [e|]]; simpl in Hq.
  - exists es. split; [done|by left].
  - exists es. split; [done|right].
    destruct (tail_run_events E args) as (rest & Htail & Hrest).
    destruct (tail_run E args) as [es' r]. simpl in Htail. subst es'.
    eexists. cbn [fst]. split; [by rewrite <- app_assoc|].
    intros x. rewrite !elem_of_cons. intros [->|[->|Hx]]; auto.
    apply Hrest in Hx. rewrite !elem_of_cons in Hx. tauto.
Qed.

(** C10: P.tlen is closed before any child process is spawned, and P.fa is
    never closed.  In every run no close of P.fa occurs and its handle is
    open when the run ends; at the moment a child process is spawned, P.fa
    has been opened and its handle is still open, while P.tlen has been
    closed and its handle is no longer open; and the aligner is spawned in
    every run whose FASTA files are all read. *)
Theorem C10_fa_never_closed E args :
  (EClose (fa_path args) ∉ trace (script E args init_world).2)
  ∧ fa_path args ∈ handles (script E args init_world).2
  ∧ (∀ j argv stdout,
       trace (script E args init_world).2 !! j = Some (ECall argv stdout) →
       EOpen (fa_path args) ∈ take j (trace (script E args init_world).2)
       ∧ EClose (tlen_path args) ∈ take j (trace (script E args init_world).2)
       ∧ fa_path args
           ∈ handles (replay (take j (trace (script E args init_world).2))
                        init_world)
       ∧ tlen_path args
           ∉ handles (replay (take j (trace (script E args init_world).2))
                        init_world))
  ∧ (∀ seqss,
       mapM (read_fasta E) (fasta args) = Some seqss →
       ECall (mapper_argv args) (Some (paf_path args))
         ∈ trace (script E args init_world).2).
Proof.
  pose proof (fa_tlen_distinct args) as Hft.
  pose proof (fa_paf_distinct args) as Hfp.
  pose proof (tlen_paf_distinct args) as Htp.
  rewrite trace_script. rewrite script_denote. cbn [snd].
  destruct (script_run_shape E args) as (es & Hq & Hshape).
  set (opens := [EOpen (fa_path args); EOpen (tlen_path args)]) in *.
  set (tail := [EOpen (paf_path args);
                ECall (mapper_argv args) (Some (paf_path args));
                EClose (paf_path args); EPrint (Rargs args);
                ECall (minidotr_argv args) None]) in *.
  assert (EClose (fa_path args) ∉ tail) as Htail_close.
  { subst tail. rewrite !not_elem_of_cons.
    repeat split; try done; try apply not_elem_of_nil; congruence. }
  assert (EOpen (tlen_path args) ∉ tail) as Htail_open.
  { subst tail. rewrite !not_elem_of_cons.
    repeat split; try done; try apply not_elem_of_nil; congruence. }
  assert (fa_path args ∈ handles (replay (opens ++ es) init_world)
          ∧ tlen_path args ∈ handles (replay (opens ++ es) init_world))
    as [Hfa_open Htlen_open].
  { rewrite replay_app, handles_replay_quiet by done. simpl.
    rewrite !elem_of_union, !elem_of_singleton. auto. }
  assert (EClose (fa_path args) ∉ opens ++ es) as Hpre_close.
  { rewrite not_elem_of_app. split; [|by apply quiet_not_close].
    subst opens. rewrite !not_elem_of_cons. repeat split; try done.
    apply not_elem_of_nil. }
  split; [|split; [|split]].
  - destruct Hshape as [->|(rest & -> & Hrest)]; [done|].
    rewrite not_elem_of_app, not_elem_of_cons.
    split; [done|]. split; [congruence|].
    intros Hin. by apply Hrest in Hin.
  - destruct Hshape as [->|(rest & -> & Hrest)]; [done|].
    rewrite replay_app. cbn [replay foldl].
    apply handles_replay_keeps.
    + simpl. apply elem_of_difference. split; [done|].
      by rewrite elem_of_singleton.
    + intros Hin. by apply Hrest in Hin.
  - intros j argv stdout Hj.
    destruct Hshape as [Hrun|(rest & Hrun & Hrest)]; rewrite Hrun in Hj |- *.
    { exfalso. destruct (decide (j < 2)) as [Hlt|Hge].
      - subst opens. by destruct j as [|[|j]]; try lia.
      - rewrite lookup_app_r in Hj by (simpl; lia).
        by eapply quiet_not_call. }
    destruct (decide (j < length (opens ++ es))) as [Hlt|Hge].
    { exfalso. rewrite lookup_app_l in Hj by done.
      destruct (decide (j < 2)) as [Hlt2|Hge2].
      - subst opens. by destruct j as [|[|j]]; try lia.
      - rewrite lookup_app_r in Hj by (simpl; lia).
        by eapply quiet_not_call. }
    rewrite lookup_app_r in Hj by lia.
    destruct (j - length (opens ++ es)) as [|m] eqn:Hm; [done|].
    rewrite take_app_ge by lia. rewrite Hm. cbn [take].
    assert (take m rest ⊆ tail) as Hsub.
    { intros x Hx. by apply Hrest, (subseteq_take m rest). }
    split.
    { apply elem_of_app. left. apply elem_of_app. left. subst opens. left. }
    split.
    { apply elem_of_app. right. left. }
    rewrite replay_app. cbn [replay foldl].
    split.
    + apply handles_replay_keeps.
      * simpl. apply elem_of_difference. split; [done|].
        by rewrite elem_of_singleton.
      * intros Hin. by apply Hsub in Hin.
    + apply handles_replay_absent.
      * simpl. rewrite elem_of_difference, elem_of_singleton. by intros [_ []].
      * intros Hin. by apply Hsub in Hin.
  - intros seqss Hread. rewrite (script_run_ok _ _ _ Hread). cbn [fst].
    destruct (tail_run_events E args) as (rest & -> & _).
    rewrite !elem_of_app. right. right. right. right. left.
Qed.

Lemma C10_fa_never_closed_witness :
  mapM (read_fasta Sample.env) (fasta Sample.pair) = Some Sample.pair_seqs
  ∧ trace (script Sample.env Sample.pair init_world).2 !! 10
    = Some (ECall ["minimap2"; "-x"; "asm10"; "--no-long-join"; "--dual=yes";
                   "-P"; "out.fa"; "out.fa"] (Some "out.paf"))
  ∧ (EClose "out.fa" ∉ trace (script Sample.env Sample.pair init_world).2)
  ∧ EClose "out.tlen"
      ∈ take 10 (trace (script Sample.env Sample.pair init_world).2)
  ∧ "out.fa"
      ∈ handles (replay (take 10 (trace (script Sample.env Sample.pair
                                           init_world).2)) init_world)
  ∧ ECall (mapper_argv Sample.pair) (Some (paf_path Sample.pair))
      ∈ trace (script Sample.env Sample.pair init_world).2.
Proof.
  split; [vm_compute; reflexivity|].
  split; [vm_compute; reflexivity|].
  destruct (C10_fa_never_closed Sample.env Sample.pair)
    as (Hnever & _ & Hspawn & Hprogress).
  destruct (Hspawn 10 ["minimap2"; "-x"; "asm10"; "--no-long-join";
                      "--dual=yes"; "-P"; "out.fa"; "out.fa"] (Some "out.paf"))
    as (_ & Hclosed & Hopen & _); [vm_compute; reflexivity|].
  split; [exact Hnever|]. split; [exact Hclosed|]. split; [exact Hopen|].
  apply (Hprogress Sample.pair_seqs). vm_compute; reflexivity.
Defined.

(** ** The end-to-end scenario of the specification *)

(** [a.fa] with one sequence of 100 bases and [b.fa] with one of 200, default
    flags: [out.fa] gets the entries [a] and [b], [out.tlen] the rows
    [a TAB 100] and [b TAB 200], and the aligner runs on [out.fa out.fa]. *)
Example end_to_end :
  let run := main Sample.env (Sample.plain ["a.fa"; "b.fa"]) in
  run.1 = 0%Z
  ∧ files run.2 !! "out.fa"
    = Some (">a" +:+ NL +:+ Sample.bases 100 "A" +:+ NL
              +:+ ">b" +:+ NL +:+ Sample.bases 200 "C" +:+ NL)
  ∧ files run.2 !! "out.tlen"
    = Some ("a" +:+ TAB +:+ "100" +:+ NL +:+ "b" +:+ TAB +:+ "200" +:+ NL)
  ∧ calls (trace run.2)
    = [(["minimap2"; "-x"; "asm10"; "--no-long-join"; "--dual=yes"; "-P";
         "out.fa"; "out.fa"], Some "out.paf");
       (["minidot.R"; "-i"; "out.paf"; "-l"; "out.tlen"; "-o"; "out.pdf";
         "--width"; "20"; "--thick"; "2"; "--identity"; "0.0"], None)]
  ∧ elements (handles run.2) = ["out.fa"].
Proof. by vm_compute. Qed.

(** A command line without FASTA files is rejected before the script runs. *)
Example no_fasta_rejected :
  main Sample.env (Sample.plain []) = (2%Z, init_world).
Proof. reflexivity. Qed.

(** ** Further properties of the names the script derives *)

Lemma rfind_none c s : occurs c s = false → rfind c s = (-1)%Z.
Proof.
  induction s as [|a s IH]; simpl; [done|].
  case_decide; [done|]. intros Hs. by rewrite (IH Hs).
Qed.

Lemma rfind_last c d s :
  occurs c s = false → rfind c (d +:+ String c s) = Z.of_nat (String.length d).
Proof.
  intros Hs. induction d as [|a d IH].
  - rewrite append_nil_l. simpl. by rewrite (rfind_none _ _ Hs), decide_True.
  - rewrite append_cons. simpl rfind. rewrite IH.
    destruct (0 <=? Z.of_nat (String.length d))%Z eqn:Hle.
    + simpl String.length. lia.
    + apply Z.leb_gt in Hle. lia.
Qed.

Lemma length_append (a b : string) :
  String.length (a +:+ b) = String.length a + String.length b.
Proof.
  induction a as [|x a IH]; [done|]. rewrite append_cons. simpl. by rewrite IH.
Qed.

Lemma os_path_basename_of_dir d s :
  occurs "/"%char s = false → os_path_basename ((d +:+ "/") +:+ s) = s.
Proof.
  intros Hs. unfold os_path_basename.
  rewrite append_assoc. change ("/" +:+ s) with (String "/"%char s).
  rewrite (rfind_last _ _ _ Hs).
  replace (Z.to_nat (Z.of_nat (String.length d) + 1))
    with (String.length (d +:+ "/")) by (rewrite length_append; simpl; lia).
  change (String "/"%char s) with ("/" +:+ s). rewrite <- append_assoc.
  apply slice_from_append.
Qed.

Lemma os_path_basename_plain s :
  occurs "/"%char s = false → os_path_basename s = s.
Proof. intros Hs. unfold os_path_basename. by rewrite (rfind_none _ _ Hs). Qed.

Lemma before_first_dot_stem name rest :
  occurs "."%char name = false →
  rest = "" ∨ (∃ r, rest = String "."%char r) →
  before_first_dot (name +:+ rest) = name.
Proof.
  intros Hname Hrest. induction name as [|c name IH].
  - rewrite append_nil_l. by destruct Hrest as [->|[r ->]].
  - rewrite append_cons. simpl in *. case_decide; [done|]. by rewrite IH.
Qed.

(** X1: the name of a FASTA is decided by the stem of its file name alone: the
    directory and everything from the first dot of the file name on are
    dropped, so files that differ only in these get the same name. *)
Theorem basename_of_stem dir name rest :
  dir = "" ∨ (∃ d, dir = d +:+ "/") →
  occurs "/"%char (name +:+ rest) = false →
  occurs "."%char name = false →
  rest = "" ∨ (∃ r, rest = String "."%char r) →
  basename_of (dir +:+ name +:+ rest) = name.
Proof.
  intros Hdir Hslash Hdot Hrest. unfold basename_of. rewrite item0_split_dot.
  destruct Hdir as [->|[d ->]].
  - rewrite append_nil_l, os_path_basename_plain by done.
    by apply before_first_dot_stem.
  - rewrite os_path_basename_of_dir by done. by apply before_first_dot_stem.
Qed.

Lemma basename_of_stem_witness :
  basename_of ("x/" +:+ "a" +:+ ".fa") = "a"
  ∧ basename_of ("run.2/y/" +:+ "a" +:+ ".fasta.gz") = "a".
Proof.
  split.
  - apply (basename_of_stem "x/" "a" ".fa");
      [right; by exists "x"|reflexivity|reflexivity|right; by eexists].
  - apply (basename_of_stem "run.2/y/" "a" ".fasta.gz");
      [right; by exists "run.2/y"|reflexivity|reflexivity|right; by eexists].
Defined.

(** X2: the intermediate files are named after the output path cut at its first
    dot, wherever that dot is: a dot in a directory name cuts the path there,
    and what follows, slashes included, plays no part.  The three paths are
    pairwise distinct. *)
Theorem derived_paths args stem rest :
  output args = stem +:+ rest →
  occurs "."%char stem = false →
  rest = "" ∨ (∃ r, rest = String "."%char r) →
  fa_path args = stem +:+ ".fa"
  ∧ tlen_path args = stem +:+ ".tlen"
  ∧ paf_path args = stem +:+ ".paf"
  ∧ fa_path args ≠ tlen_path args
  ∧ fa_path args ≠ paf_path args
  ∧ tlen_path args ≠ paf_path args.
Proof.
  intros Hout Hstem Hrest.
  assert (before_first_dot (output args) = stem) as Hcut.
  { rewrite Hout. by apply before_first_dot_stem. }
  unfold fa_path, tlen_path, paf_path. rewrite !path_of_prefix, Hcut.
  do 3 (split; [done|]).
  repeat split; intros Heq; by apply append_inv_head in Heq.
Qed.

Lemma derived_paths_witness :
  output Sample.dotted_directory = "results" +:+ ".v1/plot.pdf"
  ∧ fa_path Sample.dotted_directory = "results.fa"
  ∧ tlen_path Sample.dotted_directory = "results.tlen"
  ∧ paf_path Sample.dotted_directory = "results.paf".
Proof.
  split; [reflexivity|].
  destruct (derived_paths Sample.dotted_directory "results" ".v1/plot.pdf")
    as (Hfa & Htlen & Hpaf & _);
    [reflexivity|reflexivity|right; by eexists|].
  split; [exact Hfa|]. split; [exact Htlen|exact Hpaf].
Defined.

Lemma append_inv_tail (a b c : string) : a +:+ c = b +:+ c → a = b.
Proof.
  revert b. induction a as [|x a IH]; intros [|y b] H.
  - done.
  - apply (f_equal String.length) in H. rewrite append_nil_l, append_cons in H.
    simpl in H. rewrite length_append in H. lia.
  - apply (f_equal String.length) in H. rewrite append_nil_l, append_cons in H.
    simpl in H. rewrite length_append in H. lia.
  - rewrite !append_cons in H. injection H as -> H. by rewrite (IH b H).
Qed.

Lemma cut_at_first c (a b r s : string) :
  occurs c a = false → occurs c b = false →
  a +:+ String c r = b +:+ String c s → a = b ∧ r = s.
Proof.
  revert b. induction a as [|x a IH]; intros [|y b] Ha Hb H.
  - rewrite !append_nil_l in H. by injection H.
  - rewrite append_nil_l, append_cons in H. injection H as <- _.
    simpl in Hb. by rewrite decide_True in Hb.
  - rewrite append_nil_l, append_cons in H. injection H as -> _.
    simpl in Ha. by rewrite decide_True in Ha.
  - rewrite !append_cons in H. injection H as -> H. simpl in Ha, Hb.
    case_decide; [done|]. destruct (IH b Ha Hb H) as [-> ->]. done.
Qed.

(** X3: a row of the length table can be read back: when the names hold no tab,
    equal rows come from equal names and equal sequence lengths. *)
Theorem tlen_line_inj name1 name2 seq1 seq2 :
  occurs "009"%char name1 = false →
  occurs "009"%char name2 = false →
  tlen_line name1 seq1 = tlen_line name2 seq2 →
  name1 = name2 ∧ String.length seq1 = String.length seq2.
Proof.
  intros H1 H2. unfold tlen_line, TAB.
  change (String "009"%char "" +:+ ?x) with (String "009"%char x).
  intros Heq. apply cut_at_first in Heq as [-> Heq]; [|done..].
  split; [done|]. apply append_inv_tail in Heq.
  by apply (inj pretty) in Heq.
Qed.

Lemma tlen_line_inj_witness :
  tlen_line "a" "ACGT" = tlen_line "a" "TTTT"
  ∧ "a" = "a" ∧ String.length "ACGT" = String.length "TTTT".
Proof.
  split; [vm_compute; reflexivity|].
  apply (tlen_line_inj "a" "a" "ACGT" "TTTT");
    [reflexivity|reflexivity|vm_compute; reflexivity].
Defined.

(** ** Further properties of a run *)

Lemma fetch_upto_error fh refs r :
  (fetch_upto fh refs).2 = Some r → r ∈ refs ∧ fetch fh r = None.
Proof.
  induction refs as [|r' refs IH]; simpl; [done|].
  destruct (fetch fh r') as [seq|] eqn:Hfetch; simpl.
  - destruct (fetch_upto fh refs) as [seqs bad]. simpl in *.
    intros Hbad. destruct (IH Hbad) as [Hin Hnone]. split; [by right|done].
  - intros [= <-]. split; [left|done].
Qed.

Lemma file_run_error E args path e :
  (file_run E args path).2 = Some e →
  (e = FastaError path ∧ pysam_FastaFile E path = None)
  ∨ (∃ fh r, e = FetchError path r ∧ pysam_FastaFile E path = Some fh
             ∧ r ∈ references fh ∧ fetch fh r = None).
Proof.
  unfold file_run. destruct (pysam_FastaFile E path) as [fh|] eqn:Hopen; simpl.
  - pose proof (fetch_upto_error fh (references fh)) as Hbad.
    destruct (fetch_upto fh (references fh)) as [seqs [r|]]; simpl in *; [|done].
    intros [= <-]. right. exists fh, r. destruct (Hbad r eq_refl). by eauto.
  - intros [= <-]. by left.
Qed.

Lemma loop_run_error E args l e :
  (loop_run E args l).2 = Some e →
  ∃ path, path ∈ l
    ∧ ((e = FastaError path ∧ pysam_FastaFile E path = None)
       ∨ (∃ fh r, e = FetchError path r ∧ pysam_FastaFile E path = Some fh
                  ∧ r ∈ references fh ∧ fetch fh r = None)).
Proof.
  induction l as [|path l IH]; simpl; [done|].
  pose proof (file_run_error E args path) as Hfile.
  destruct (file_run E args path) as [es [e'|]]; simpl in *.
  - intros [= <-]. exists path. split; [left|by apply Hfile].
  - destruct (loop_run E args l) as [es' r]. simpl in *. intros Hr.
    destruct (IH Hr) as (path' & Hin & Hcase). exists path'.
    split; [by right|done].
Qed.




Lemma files_replay_untouched p es w :
  Forall (fun e => e ≠ EOpen p ∧ ∀ d, e ≠ EWrite p d) es →
  files (replay es w) !! p = files w !! p.
Proof.
  intros H. revert w. induction H as [|e es [Ho Hw] _ IH]; intros w; simpl; [done|].
  rewrite IH. destruct e as [q|q d|q|q|argv so|l]; simpl; try done.
  - apply lookup_insert_ne. congruence.
  - apply lookup_insert_ne. intros ->. by apply (Hw d).
Qed.

Lemma handles_replay_untouched p es w :
  Forall (fun e => e ≠ EOpen p ∧ e ≠ EClose p) es →
  p ∈ handles (replay es w) ↔ p ∈ handles w.
Proof.
  intros H. revert w. induction H as [|e es [Ho Hc] _ IH]; intros w; simpl; [done|].
  rewrite IH. destruct e as [q|q d|q|q|argv so|l]; simpl; try done.
  - rewrite elem_of_union, elem_of_singleton. split; [|by auto].
    intros [->|Hin]; [done|done].
  - rewrite elem_of_difference, elem_of_singleton. split; [by intros [? _]|].
    intros Hin. split; [done|congruence].
Qed.

Lemma tlen_rows_own args path seqs : Forall (own_event args) (tlen_rows args path seqs).
Proof.
  unfold tlen_rows. apply Forall_fmap, Forall_forall. intros seq _. simpl. by right.
Qed.

Lemma file_run_own E args path : Forall (own_event args) (file_run E args path).1.
Proof.
  unfold file_run. destruct (pysam_FastaFile E path) as [fh|]; simpl.
  - destruct (fetch_upto fh (references fh)) as [seqs [bad|]]; simpl.
    + constructor; [done|apply tlen_rows_own].
    + constructor; [done|]. apply Forall_app. split; [apply tlen_rows_own|].
      constructor; [by left|constructor].
  - by constructor.
Qed.

Lemma loop_run_own E args l : Forall (own_event args) (loop_run E args l).1.
Proof.
  induction l as [|path l IH]; simpl; [constructor|].
  pose proof (file_run_own E args path) as Hf.
  destruct (file_run E args path) as [es [e|]]; simpl in *; [done|].
  destruct (loop_run E args l) as [es' r]; simpl in *.
  apply Forall_app. by split.
Qed.

Lemma tail_run_own E args : Forall (own_event args) (tail_run E args).1.
Proof.
  unfold tail_run. destruct (subprocess_call E (mapper_argv args)); simpl;
    repeat (apply Forall_cons; split; [simpl; by auto|]); by apply Forall_nil.
Qed.

Lemma script_run_own E args : Forall (own_event args) (script_run E args).1.
Proof.
  unfold script_run. pose proof (loop_run_own E args (fasta args)) as Hloop.
  pose proof (tail_run_own E args) as Htail.
  destruct (loop_run E args (fasta args)) as [es [e|]]; simpl in *.
  - do 2 (apply Forall_cons; split; [simpl; by auto|]). done.
  - destruct (tail_run E args) as [es' r]; simpl in *.
    do 2 (apply Forall_cons; split; [simpl; by auto|]).
    apply Forall_app. by split.
Qed.

(** X6: through its own file handles the script works on its three derived
    paths only.  In every run each [open] of the script is on P.fa, P.tlen or
    P.paf, each [write] is to P.fa or P.tlen, and each [close] is of P.tlen
    or P.paf; and the handle of any other path is, after a run from whatever
    world, in the state it was in before.  What [pysam] and the child
    processes do to the file system is no part of this statement. *)
Theorem own_file_operations E args :
  (∀ p, EOpen p ∈ trace (script E args init_world).2 →
        p = fa_path args ∨ p = tlen_path args ∨ p = paf_path args)
  ∧ (∀ p d, EWrite p d ∈ trace (script E args init_world).2 →
            p = fa_path args ∨ p = tlen_path args)
  ∧ (∀ p, EClose p ∈ trace (script E args init_world).2 →
          p = tlen_path args ∨ p = paf_path args)
  ∧ (∀ w0 p,
       p ≠ fa_path args → p ≠ tlen_path args → p ≠ paf_path args →
       (p ∈ handles (script E args w0).2 ↔ p ∈ handles w0)).
Proof.
  rewrite trace_script.
  pose proof (script_run_own E args) as Hown.
  split; [|split; [|split]].
  - intros p Hin. rewrite Forall_forall in Hown. exact (Hown _ Hin).
  - intros p d Hin. rewrite Forall_forall in Hown. exact (Hown _ Hin).
  - intros p Hin. rewrite Forall_forall in Hown. exact (Hown _ Hin).
  - intros w0 p Hfa Htlen Hpaf. rewrite script_denote. cbn [snd].
    apply handles_replay_untouched. eapply Forall_impl; [exact Hown|].
    intros [q|q d|q|q|argv so|l]; simpl; try done.
    + intros Hq. split; [|done]. intros [= ->]. tauto.
    + intros Hq. split; [done|]. intros [= ->]. tauto.
Qed.

Lemma own_file_operations_witness :
  EWrite "out.tlen" ("a" +:+ TAB +:+ "100" +:+ NL)
    ∈ trace (script Sample.env Sample.pair init_world).2
  ∧ ("out.tlen" = fa_path Sample.pair ∨ "out.tlen" = tlen_path Sample.pair)
  ∧ ("a.fa" ∈ handles (script Sample.env Sample.pair init_world).2
     ↔ "a.fa" ∈ handles init_world).
Proof.
  assert (EWrite "out.tlen" ("a" +:+ TAB +:+ "100" +:+ NL)
            ∈ trace (script Sample.env Sample.pair init_world).2) as Hin.
  { apply (bool_decide_unpack _). vm_compute. exact I. }
  destruct (own_file_operations Sample.env Sample.pair)
    as (_ & Hwrites & _ & Hhandles).
  split; [exact Hin|]. split; [exact (Hwrites _ _ Hin)|].
  apply (Hhandles init_world "a.fa"); discriminate.
Defined.

Lemma loop_run_never_closed_file E args l p :
  (loop_run E args l).2 ≠ Some (ClosedFile p).
Proof.
  intros Hloop. apply loop_run_error in Hloop
    as (path & _ & [[Herr _]|(fh & r & Herr & _)]); discriminate Herr.
Qed.

(** A quiet event of a run is an event of the loop: what precedes it is the
    two opens and quiet events only. *)
Lemma before_quiet_event E args j e :
  quiet e →
  (script_run E args).1 !! j = Some e →
  ∃ es, Forall quiet es
    ∧ take j (script_run E args).1
      = [EOpen (fa_path args); EOpen (tlen_path args)] ++ es.
Proof.
  intros He Hj.
  destruct (script_run_shape E args) as (es & Hq & Hshape).
  set (opens := [EOpen (fa_path args); EOpen (tlen_path args)]) in *.
  assert (∀ k, (opens ++ k) !! j = Some e → 2 ≤ j) as Hge.
  { intros k Hk. destruct (decide (j < 2)); [|lia].
    subst opens. destruct j as [|[|j]]; simpl in Hk; try lia;
      injection Hk as <-; done. }
  exists (take (j - 2) es). split; [by apply Forall_take|].
  destruct Hshape as [Hrun|(rest & Hrun & Hrest)]; rewrite Hrun in Hj |- *.
  - pose proof (Hge _ Hj). by rewrite take_app_ge.
  - destruct (decide (j < length (opens ++ es))) as [Hlt|Hnlt].
    + rewrite lookup_app_l in Hj by done. pose proof (Hge _ Hj).
      rewrite take_app_le by lia. by rewrite take_app_ge.
    + exfalso. rewrite lookup_app_r in Hj by lia.
      destruct (j - length (opens ++ es)) as [|m].
      * simpl in Hj. injection Hj as <-. done.
      * simpl in Hj. apply list_elem_of_lookup_2, Hrest in Hj.
        rewrite !elem_of_cons, elem_of_nil in Hj.
        destruct Hj as [->|[->|[->|[->|[->|[]]]]]]; done.
Qed.

(** X4: the script never writes to a file it has closed.  No run, from
    whatever world it starts, ends with the error of a write to a closed
    file; and every write of a run goes to P.fa or to P.tlen at a moment
    when that file has been opened, has not been closed, and its handle is
    open. *)
Theorem writes_reach_open_handles E args :
  (∀ w0 p, (script E args w0).1 ≠ Raise (ClosedFile p))
  ∧ (∀ j p d,
       trace (script E args init_world).2 !! j = Some (EWrite p d) →
       (p = fa_path args ∨ p = tlen_path args)
       ∧ EOpen p ∈ take j (trace (script E args init_world).2)
       ∧ (EClose p ∉ take j (trace (script E args init_world).2))
       ∧ p ∈ handles (replay (take j (trace (script E args init_world).2))
                        init_world)).
Proof.
  split.
  - intros w0 p. rewrite script_denote. cbn [fst]. unfold script_run.
    pose proof (loop_run_never_closed_file E args (fasta args) p) as Hloop.
    destruct (loop_run E args (fasta args)) as [es [e|]]; cbn [fst snd] in *.
    + congruence.
    + unfold tail_run.
      destruct (subprocess_call E (mapper_argv args)); cbn [snd]; [|done].
      by destruct (subprocess_call E (minidotr_argv args)).
  - intros j p d. rewrite trace_script. intros Hj.
    assert (p = fa_path args ∨ p = tlen_path args) as Hp.
    { pose proof (script_run_own E args) as Hown.
      rewrite Forall_forall in Hown.
      by apply (Hown _ (list_elem_of_lookup_2 _ _ _ Hj)). }
    destruct (before_quiet_event E args j (EWrite p d) I Hj) as (es & Hq & ->).
    split; [done|]. split; [|split].
    + apply elem_of_app. left. destruct Hp as [-> | ->]; [left|right; left].
    + rewrite not_elem_of_app. split; [|by apply quiet_not_close].
      rewrite !not_elem_of_cons. repeat split; try done. apply not_elem_of_nil.
    + rewrite replay_app, handles_replay_quiet by done. simpl.
      rewrite !elem_of_union, !elem_of_singleton. destruct Hp; auto.
Qed.

Lemma writes_reach_open_handles_witness :
  trace (script Sample.env Sample.pair init_world).2 !! 3
  = Some (EWrite "out.tlen" ("a" +:+ TAB +:+ "100" +:+ NL))
  ∧ EOpen "out.tlen" ∈ take 3 (trace (script Sample.env Sample.pair init_world).2)
  ∧ "out.tlen"
      ∈ handles (replay (take 3 (trace (script Sample.env Sample.pair
                                           init_world).2)) init_world).
Proof.
  split; [vm_compute; reflexivity|].
  destruct (writes_reach_open_handles Sample.env Sample.pair) as [_ Hwrite].
  destruct (Hwrite 3 "out.tlen" ("a" +:+ TAB +:+ "100" +:+ NL))
    as (_ & Hopened & _ & Hhandle); [vm_compute; reflexivity|].
  split; [exact Hopened|exact Hhandle].
Defined.

Lemma tail_run_untouched E args p :
  p = fa_path args ∨ p = tlen_path args →
  Forall (fun e => e ≠ EOpen p ∧ ∀ d, e ≠ EWrite p d) (tl (tail_run E args).1)
  ∧ writes_to p (tl (tail_run E args).1) = [].
Proof.
  intros Hp.
  assert (p ≠ paf_path args) as Hne.
  { destruct Hp as [-> | ->]; [apply fa_paf_distinct|apply tlen_paf_distinct]. }
  unfold tail_run. destruct (subprocess_call E (mapper_argv args)); simpl.
  - split; [|done].
    repeat (apply Forall_cons; split; [split; [congruence|done]|]).
    by apply Forall_nil.
  - split; [|done].
    repeat (apply Forall_cons; split; [split; [congruence|done]|]).
    by apply Forall_nil.
Qed.

(** X7: the two output files are made afresh by every run: whatever a path held
    before, P.fa and P.tlen end up holding exactly what this run wrote to
    them, so a second run overwrites the first instead of adding to it. *)
Theorem outputs_made_afresh E args w0 p :
  p = fa_path args ∨ p = tlen_path args →
  files (script E args w0).2 !! p
  = Some (join (writes_to p (trace (script E args init_world).2)))
  ∧ files (script E args (script E args w0).2).2 !! p
    = files (script E args w0).2 !! p.
Proof.
  intros Hp.
  assert (∀ w, files (script E args w).2 !! p
               = Some (join (writes_to p (script_run E args).1))) as Hany.
  { intros w. rewrite script_denote. cbn [snd].
    pose proof (files_after_opens E args w p Hp) as Hprep.
    rewrite script_run_prepare.
    destruct (prepare_run E args).2 as [[]|e]; cbn [fst]; [|done].
    destruct (tail_run_untouched E args p Hp) as [Huntouched Hnone].
    rewrite replay_app, files_replay_untouched by done.
    by rewrite writes_to_app, Hnone, app_nil_r. }
  rewrite trace_script. split; [apply Hany|]. by rewrite !Hany.
Qed.

Lemma outputs_made_afresh_witness :
  files (script Sample.env Sample.pair
           (script Sample.env Sample.mixed init_world).2).2 !! "out.tlen"
  = Some ("a" +:+ TAB +:+ "100" +:+ NL +:+ "b" +:+ TAB +:+ "200" +:+ NL).
Proof.
  destruct (outputs_made_afresh Sample.env Sample.pair
              (script Sample.env Sample.mixed init_world).2 "out.tlen")
    as [Hfresh _]; [right; reflexivity|].
  rewrite Hfresh. vm_compute. reflexivity.
Defined.

Lemma loop_events_quiet E args l seqss :
  mapM (read_fasta E) l = Some seqss → Forall quiet (loop_events args l seqss).
Proof.
  intros Hread. pose proof (loop_run_quiet E args l) as Hq.
  by rewrite (loop_run_ok _ _ _ _ Hread) in Hq.
Qed.

(** X8: when the aligner cannot be spawned the run ends there: the renderer is
    not spawned and its arguments are not printed; P.paf has been created
    empty and its handle is left open beside that of P.fa. *)
Theorem aligner_not_spawned E args seqss :
  mapM (read_fasta E) (fasta args) = Some seqss →
  subprocess_call E (mapper_argv args) = None →
  ∃ w es,
    script E args init_world = (Raise (SpawnError (mapper_argv args)), w)
    ∧ Forall quiet es
    ∧ trace w
      = [EOpen (fa_path args); EOpen (tlen_path args)] ++ es
          ++ [EClose (tlen_path args); EOpen (paf_path args);
              ECall (mapper_argv args) (Some (paf_path args))]
    ∧ (∀ p, p ∈ handles w ↔ p = fa_path args ∨ p = paf_path args)
    ∧ files w !! paf_path args = Some "".
Proof.
  intros Hread Hspawn.
  pose proof (fa_tlen_distinct args) as Hft.
  pose proof (fa_paf_distinct args) as Hfp.
  pose proof (tlen_paf_distinct args) as Htp.
  pose proof (loop_events_quiet E args _ _ Hread) as Hq.
  eexists _, (loop_events args (fasta args) seqss).
  rewrite script_denote, (script_run_ok _ _ _ Hread). unfold tail_run.
  rewrite Hspawn. cbn [fst snd].
  split; [done|]. split; [done|]. split; [by rewrite trace_replay|].
  rewrite !replay_app. cbn [replay foldl]. split.
  - intros p. simpl. rewrite handles_replay_quiet by done. simpl.
    rewrite !elem_of_union, !elem_of_difference, !elem_of_union,
      !elem_of_singleton, elem_of_empty.
    intuition congruence.
  - simpl. by rewrite lookup_insert_eq.
Qed.

Lemma aligner_not_spawned_witness :
  mapM (read_fasta Sample.env_no_aligner) (fasta Sample.pair)
  = Some Sample.pair_seqs
  ∧ subprocess_call Sample.env_no_aligner (mapper_argv Sample.pair) = None
  ∧ ∃ w,
      script Sample.env_no_aligner Sample.pair init_world
      = (Raise (SpawnError (mapper_argv Sample.pair)), w)
      ∧ files w !! "out.paf" = Some "".
Proof.
  split; [vm_compute; reflexivity|].
  split; [vm_compute; reflexivity|].
  destruct (aligner_not_spawned Sample.env_no_aligner Sample.pair
              Sample.pair_seqs) as (w & es & Hrun & _ & _ & _ & Hpaf);
    [vm_compute; reflexivity..|].
  exists w. split; [exact Hrun|exact Hpaf].
Defined.

(** X9: once the aligner has been spawned, whatever it returns, the run goes on
    to close P.paf, print the renderer's arguments and spawn the renderer;
    the run ends normally when the renderer is spawned and with an exception
    when it cannot be.  Either way P.fa is the only handle left open, and the
    script itself has written nothing to P.paf. *)
Theorem after_the_aligner E args seqss rc :
  mapM (read_fasta E) (fasta args) = Some seqss →
  subprocess_call E (mapper_argv args) = Some rc →
  ∃ w es,
    script E args init_world
    = (match subprocess_call E (minidotr_argv args) with
       | Some _ => Ok tt
       | None => Raise (SpawnError (minidotr_argv args))
       end, w)
    ∧ Forall quiet es
    ∧ trace w
      = [EOpen (fa_path args); EOpen (tlen_path args)] ++ es
          ++ [EClose (tlen_path args); EOpen (paf_path args);
              ECall (mapper_argv args) (Some (paf_path args));
              EClose (paf_path args); EPrint (Rargs args);
              ECall (minidotr_argv args) None]
    ∧ (∀ p, p ∈ handles w ↔ p = fa_path args)
    ∧ files w !! paf_path args = Some "".
Proof.
  intros Hread Hspawn.
  pose proof (fa_tlen_distinct args) as Hft.
  pose proof (fa_paf_distinct args) as Hfp.
  pose proof (tlen_paf_distinct args) as Htp.
  pose proof (loop_events_quiet E args _ _ Hread) as Hq.
  eexists _, (loop_events args (fasta args) seqss).
  rewrite script_denote, (script_run_ok _ _ _ Hread). unfold tail_run.
  rewrite Hspawn. cbn [fst snd].
  split; [done|]. split; [done|]. split; [by rewrite trace_replay|].
  rewrite !replay_app. cbn [replay foldl app]. split.
  - intros p. simpl. rewrite handles_replay_quiet by done. simpl.
    rewrite !elem_of_difference, !elem_of_union, !elem_of_difference,
      !elem_of_union, !elem_of_singleton, elem_of_empty.
    intuition congruence.
  - simpl. by rewrite lookup_insert_eq.
Qed.

Lemma after_the_aligner_witness :
  mapM (read_fasta Sample.env_no_renderer) (fasta Sample.pair)
  = Some Sample.pair_seqs
  ∧ subprocess_call Sample.env_no_renderer (mapper_argv Sample.pair)
    = Some 0%Z
  ∧ ∃ w,
      script Sample.env_no_renderer Sample.pair init_world
      = (Raise (SpawnError (minidotr_argv Sample.pair)), w)
      ∧ ("out.fa" ∈ handles w ↔ "out.fa" = fa_path Sample.pair)
      ∧ files w !! "out.paf" = Some "".
Proof.
  split; [vm_compute; reflexivity|].
  split; [vm_compute; reflexivity|].
  destruct (after_the_aligner Sample.env_no_renderer Sample.pair
              Sample.pair_seqs 0%Z) as (w & es & Hrun & _ & _ & Hopen & Hpaf);
    [vm_compute; reflexivity..|].
  exists w. split; [exact Hrun|]. split; [exact (Hopen "out.fa")|exact Hpaf].
Defined.




(** X11: both output files are opened for writing, and so emptied, before any
    input is read: whenever [pysam.FastaFile] is called, on whatever path,
    P.fa and P.tlen have been opened and their handles are open.  An input
    that is itself P.fa or P.tlen is therefore emptied before it is read. *)
Theorem outputs_opened_before_inputs E args j path :
  trace (script E args init_world).2 !! j = Some (EFasta path) →
  EOpen (fa_path args) ∈ take j (trace (script E args init_world).2)
  ∧ EOpen (tlen_path args) ∈ take j (trace (script E args init_world).2)
  ∧ fa_path args
      ∈ handles (replay (take j (trace (script E args init_world).2)) init_world)
  ∧ tlen_path args
      ∈ handles (replay (take j (trace (script E args init_world).2)) init_world).
Proof.
  rewrite trace_script.
  destruct (script_run_shape E args) as (es & Hq & Hshape).
  set (opens := [EOpen (fa_path args); EOpen (tlen_path args)]) in *.
  intros Hj.
  assert (2 ≤ j ∧ take j (script_run E args).1 = opens ++ take (j - 2) es)
    as [Hj2 ->].
  { destruct Hshape as [Hrun|(rest & Hrun & Hrest)]; rewrite Hrun in Hj |- *.
    - assert (2 ≤ j) as Hge.
      { destruct (decide (j < 2)); [|lia].
        subst opens. by destruct j as [|[|j]]; try lia. }
      split; [done|]. by rewrite take_app_ge.
    - destruct (decide (j < length (opens ++ es))) as [Hlt|Hge].
      + rewrite lookup_app_l in Hj by done.
        assert (2 ≤ j) as Hge.
        { destruct (decide (j < 2)); [|lia].
          subst opens. by destruct j as [|[|j]]; try lia. }
        split; [done|]. rewrite take_app_le by lia. by rewrite take_app_ge.
      + exfalso. rewrite lookup_app_r in Hj by lia.
        destruct (j - length (opens ++ es)) as [|m]; [done|].
        simpl in Hj. apply list_elem_of_lookup_2, Hrest in Hj.
        rewrite !elem_of_cons, elem_of_nil in Hj.
        by destruct Hj as [?|[?|[?|[?|[?|[]]]]]]. }
  split; [apply elem_of_app; left; left|].
  split; [apply elem_of_app; left; right; left|].
  rewrite replay_app, handles_replay_quiet by (by apply Forall_take).
  simpl. rewrite !elem_of_union, !elem_of_singleton. auto.
Qed.


Lemma outputs_opened_before_inputs_witness :
  trace (script Sample.env Sample.pair init_world).2 !! 2 = Some (EFasta "a.fa")
  ∧ EOpen "out.fa" ∈ take 2 (trace (script Sample.env Sample.pair init_world).2)
  ∧ "out.tlen"
      ∈ handles (replay (take 2 (trace (script Sample.env Sample.pair
                                           init_world).2)) init_world).
Proof.
  split; [vm_compute; reflexivity|].
  destruct (outputs_opened_before_inputs Sample.env Sample.pair 2 "a.fa")
    as (Hopened & _ & _ & Hhandle); [vm_compute; reflexivity|].
  split; [exact Hopened|exact Hhandle].
Defined.
